(** * analyze_a2a: head-sensitivity selection and attention report

    A shallow embedding of [main] of [analyze_a2a.py] and the properties of
    its stages: residue-name lookup, the head-statistics table, the one-sided
    t-test, the dual-threshold selection of sensitive heads, the percentile
    report and the persisted artefacts.

    Modelling choices.
    - Python floats that are compared against the fixed thresholds or fed to
      the t-test (impact, SNR, p-value, attention-map entries) are binary64
      numbers: Rocq's primitive [float], whose comparisons are false on NaN
      exactly as Python's.
    - The accumulated-attention scores handed to [np.percentile] are exact
      rationals ([Q]); the interpolation is therefore the exact one and
      binary64 rounding inside numpy is not modelled.
    - A tensor is a shape with a flat row-major storage, as torch keeps it.
    - Exceptions are values of [exception]; a stage that may raise returns a
      [result]; the stages that write files thread the set of written
      artefacts and keep what was written before a failure.
    - The model collaborator ([AllosticHeadAnalyzer]) is not part of the
      script: its three methods are the fields of the record [Analyzer]. *)

From Stdlib Require Import ZArith QArith Qround Lqa String Ascii Floats Uint63.
From stdpp Require Import base option list sorting gmap strings pretty.

Set Warnings "-inexact-float".

Local Open Scope string_scope.
Local Open Scope Z_scope.

(** ** Exceptions and fallible computations *)

Inductive exception : Set :=
  | AssertionError
  | IndexError
  | KeyError
  | RuntimeError.

Inductive result (A : Type) : Type :=
  | Ok (a : A)
  | Raise (e : exception).
Arguments Ok {A} a.
Arguments Raise {A} e.

Definition rbind {A B} (r : result A) (k : A -> result B) : result B :=
  match r with
  | Ok a => k a
  | Raise e => Raise e
  end.

Notation "x <-? r ; k" := (rbind r (fun x => k))
  (at level 100, r at next level, right associativity).

Definition is_ok {A} (r : result A) : bool :=
  match r with Ok _ => true | Raise _ => false end.

(** [[f(x) for x in l]] where [f] may raise: the first exception wins. *)
Fixpoint rmap {A B} (f : A -> result B) (l : list A) : result (list B) :=
  match l with
  | [] => Ok []
  | x :: l' => y <-? f x; ys <-? rmap f l'; Ok (y :: ys)
  end.

(** ** Python sequence indexing *)

(** [l[i]] on a list or array: a negative index counts from the end,
    anything outside [-len(l) <= i < len(l)] raises IndexError. *)
Definition py_index {A} (l : list A) (i : Z) : result A :=
  let n := Z.of_nat (length l) in
  let j := if i <? 0 then i + n else i in
  if (0 <=? j) && (j <? n)
  then match l !! Z.to_nat j with
       | Some x => Ok x
       | None => Raise IndexError
       end
  else Raise IndexError.

(** [s[i]] on a [str], with the same rule. *)
Definition str_index (s : string) (i : Z) : result ascii :=
  let n := Z.of_nat (String.length s) in
  let j := if i <? 0 then i + n else i in
  if (0 <=? j) && (j <? n)
  then match String.get (Z.to_nat j) s with
       | Some c => Ok c
       | None => Raise IndexError
       end
  else Raise IndexError.

(** ** Residue names (lines 25-28) *)

(** [Bio.Data.IUPACData.protein_letters_1to3]: the twenty standard amino
    acids. *)
Definition protein_letters_1to3 : gmap string string :=
  list_to_map
    [ ("A", "Ala"); ("C", "Cys"); ("D", "Asp"); ("E", "Glu"); ("F", "Phe");
      ("G", "Gly"); ("H", "His"); ("I", "Ile"); ("K", "Lys"); ("L", "Leu");
      ("M", "Met"); ("N", "Asn"); ("P", "Pro"); ("Q", "Gln"); ("R", "Arg");
      ("S", "Ser"); ("T", "Thr"); ("V", "Val"); ("W", "Trp"); ("Y", "Tyr") ].

(** [d[k]] on a dict: KeyError when the key is absent. *)
Definition dict_get {V} (d : gmap string V) (k : string) : result V :=
  match d !! k with
  | Some v => Ok v
  | None => Raise KeyError
  end.

(** One iteration of the loop of line 27:
    [one_to_three[f"{sequence[i-1]}"]]. *)
Definition residue_3l (sequence : string) (i : Z) : result string :=
  c <-? str_index sequence (i - 1);
  dict_get protein_letters_1to3 (String c EmptyString).

(** The loop of lines 25-28, building [allosteric_res_3l]. *)
Definition allosteric_res_3l (sequence : string) (allosteric_res : list Z)
  : result (list string) :=
  rmap (residue_3l sequence) allosteric_res.

(** The receptor sequence of line 20. *)
Definition sequence_2YDO : string :=
  "MPIMGSSVYITVELAIAVLAILGNVLVCWAVWLNSNLQNVTNYFVVSAAAADILVGVLAIPFAIAISTGFCAACHGCLFIACFVLVLTASSIFSLLAIAIDRYIAIRIPLRYNGLVTGTRAKGIIAICWVLSFAIGLTPMLGWNNCGQPKEGKAHSQGCGEGQVACLFEDVVPMNYMVYFNFFACVLVPLLLMLGVYLRIFLAARRQLKQMESQPLPGERARSTLQKEVHAAKSLAIIVGLFALCWLPLHIINCFTFFCPDCSHAPLWLMYLAIVLSHTNSVVNPFIYAYRIREFRQTFRKIIRSHVLRQQEPFKAAAAENLYFQ".

Definition allosteric_res_2YDO : list Z := [169; 253; 277; 278].

Local Close Scope string_scope.

(** ** Tensors *)

(** A tensor of floats: its shape and its row-major storage. *)
Record tensor : Set := Tensor {
  shape : list nat;
  storage : list float
}.

Definition numel (sh : list nat) : nat := foldr Nat.mul 1%nat sh.

Definition tensor_wf (t : tensor) : Prop :=
  length (storage t) = numel (shape t).

Definition ndim (t : tensor) : nat := length (shape t).

(** [t[i]] for a non-negative [i]: the [i]-th slice along the first axis. *)
Definition select (t : tensor) (i : nat) : result tensor :=
  match shape t with
  | [] => Raise IndexError
  | d :: rest =>
      if (i <? d)%nat
      then Ok (Tensor rest (take (numel rest) (drop (i * numel rest) (storage t))))
      else Raise IndexError
  end.

(** [t.item()]: the value of a one-element tensor. *)
Definition item (t : tensor) : result float :=
  match storage t with
  | [x] => Ok x
  | _ => Raise RuntimeError
  end.

(** [t[l][h]] *)
Definition select2 (t : tensor) (l h : nat) : result tensor :=
  row <-? select t l; select row h.

(** The entry of a rank-2 grid at [(l, h)], read from the storage. *)
Definition grid_at (t : tensor) (l h : nat) : float :=
  nth (l * nth 1 (shape t) 0%nat + h) (storage t) 0%float.

(** The cells of an [L] by [H] grid in row-major order: all heads of layer
    0, then those of layer 1, and so on. *)
Definition row_major (L H : nat) : list (nat * nat) :=
  l ← seq 0 L; (fun h => (l, h)) <$> seq 0 H.

(** [torch.stack(ts)] of equally shaped tensors along a new first axis
    (also [torch.cat([t.unsqueeze(0) for t in ts], dim=0)]). The callers
    guard against the empty list and take every [t] from one tensor, so
    the shapes agree. *)
Definition stack (ts : list tensor) : result tensor :=
  match ts with
  | [] => Raise RuntimeError
  | t0 :: _ =>
      if forallb (fun t => bool_decide (shape t = shape t0)) ts
      then Ok (Tensor (length ts :: shape t0) (concat (storage <$> ts)))
      else Raise RuntimeError
  end.

(** ** Stateful stages: a state threaded through code that may raise *)

(** A computation over a state [S]: the state it leaves behind (also when it
    raises, as a Python list being appended to or a file being written) and
    its outcome. *)
Definition prog (S A : Type) : Type := S -> S * result A.

Definition ret {S A} (a : A) : prog S A := fun s => (s, Ok a).

Definition bind {S A B} (m : prog S A) (k : A -> prog S B) : prog S B :=
  fun s =>
    match m s with
    | (s', Ok a) => k a s'
    | (s', Raise e) => (s', Raise e)
    end.

Definition lift {S A} (r : result A) : prog S A := fun s => (s, r).

Definition modify {S} (f : S -> S) : prog S unit := fun s => (f s, Ok tt).

Notation "x <- m ;; k" := (bind m (fun x => k))
  (at level 100, m at next level, right associativity).
Notation "m ;; k" := (bind m (fun _ => k))
  (at level 100, right associativity).

(** [for x in l: body(x)] *)
Fixpoint for_each {S A} (l : list A) (body : A -> prog S unit) : prog S unit :=
  match l with
  | [] => ret tt
  | x :: l' => body x ;; for_each l' body
  end.

(** ** The head-statistics table (lines 45-58) *)

(** [(layer, head, impact, snr)] *)
Definition head_stat : Type := nat * nat * float * float.

(** The [(layer, head)] of a record. *)
Definition stat_key (s : head_stat) : nat * nat := (s.1.1.1, s.1.1.2).

(** The record of the cell [(l, h)]. *)
Definition stat_of (impact_scores_tensor snr_values_tensor : tensor)
    (lh : nat * nat) : head_stat :=
  (lh.1, lh.2, grid_at impact_scores_tensor lh.1 lh.2,
   grid_at snr_values_tensor lh.1 lh.2).

(** The body of the inner loop, lines 56-58. *)
Definition head_stats_body (impact_scores_tensor snr_values_tensor : tensor)
    (layer head : nat) : prog (list head_stat) unit :=
  impact <- lift (x <-? select2 impact_scores_tensor layer head; item x) ;;
  snr <- lift (x <-? select2 snr_values_tensor layer head; item x) ;;
  modify (fun head_stats => head_stats ++ [(layer, head, impact, snr)]).

(** The two nested loops of lines 54-58, run on the list built so far. *)
Definition head_stats_loop (impact_scores_tensor snr_values_tensor : tensor)
    (num_layers num_heads : nat) : prog (list head_stat) unit :=
  for_each (seq 0 num_layers) (fun layer =>
    for_each (seq 0 num_heads) (fun head =>
      head_stats_body impact_scores_tensor snr_values_tensor layer head)).

(** Lines 45-58: the assertion on the impact grid ([ndim == 2]: its shape
    is a pair, unpacked at line 48), the assertion on the SNR grid, and the
    loops started from the empty list. The first component is the list as
    the loops left it (what had been computed when an exception was
    raised). *)
Definition head_stats_run (impact_scores_tensor snr_values_tensor : tensor)
  : list head_stat * result unit :=
  match shape impact_scores_tensor with
  | [num_layers; num_heads] =>
      if negb (ndim snr_values_tensor =? 2)%nat
      then ([], Raise AssertionError)
      else head_stats_loop impact_scores_tensor snr_values_tensor
             num_layers num_heads []
  | _ => ([], Raise AssertionError)
  end.

Definition head_stats (impact_scores_tensor snr_values_tensor : tensor)
  : result (list head_stat) :=
  match head_stats_run impact_scores_tensor snr_values_tensor with
  | (stats, Ok _) => Ok stats
  | (_, Raise e) => Raise e
  end.

(** ** The significance test (lines 66-71) *)

(** The float of an integer (exact below 2^53). *)
Definition float_of_Z (z : Z) : float :=
  if z <? 0
  then (- PrimFloat.of_uint63 (Uint63.of_Z (- z)))%float
  else PrimFloat.of_uint63 (Uint63.of_Z z).

(** [np.sum]: the elements added left to right, which is numpy's order for
    fewer than eight elements (longer arrays are summed pairwise). *)
Definition np_sum (a : list float) : float :=
  match a with
  | [] => 0%float
  | x :: rest => foldl PrimFloat.add x rest
  end.

(** [np.mean]: NaN (0/0) on the empty array. *)
Definition np_mean (a : list float) : float :=
  (np_sum a / float_of_Z (Z.of_nat (length a)))%float.

(** scipy's [_moment(a, 2)]: the mean of the squared deviations. *)
Definition moment2 (a : list float) : float :=
  let mean := np_mean a in
  np_mean ((fun x => ((x - mean) * (x - mean))%float) <$> a).

(** scipy's [_var(a, ddof=1)]: [_moment(a, 2) * n / (n - 1)]. *)
Definition var_ddof1 (a : list float) : float :=
  let n := Z.of_nat (length a) in
  (moment2 a * (float_of_Z n / float_of_Z (n - 1)))%float.

(** The statistic of [scipy.stats.ttest_1samp(a, popmean)]:
    [(mean - popmean) / sqrt(var / n)], computed with floating-point errors
    ignored, not raised (numpy's errstate), so that 0/0 is NaN. *)
Definition t_statistic (a : list float) (popmean : float) : float :=
  let n := Z.of_nat (length a) in
  let d := (np_mean a - popmean)%float in
  let denom := PrimFloat.sqrt (var_ddof1 a / float_of_Z n) in
  (d / denom)%float.

(** [(layer, head, impact, snr, p_val)] *)
Definition t_stat : Type := nat * nat * float * float * float.

(** The [(layer, head)] of a tested record. *)
Definition t_key (s : t_stat) : nat * nat := (s.1.1.1.1, s.1.1.1.2).


(** [[stat[2] for stat in head_stats]] *)
Definition impacts_of (head_stats : list head_stat) : list float :=
  (fun stat : head_stat => stat.1.2) <$> head_stats.

Section SignificanceTest.

(** The Student t cumulative distribution function with [df > 0] degrees
    of freedom at a statistic that is a number: a transcendental function
    evaluated by scipy, not by the script. *)
Variable student_cdf : Z -> float -> float.

(** [scipy.special.stdtr(df, t)], the p-value of the alternative
    ['less']: NaN on a NaN statistic and without degrees of freedom. *)
Definition stdtr (df : Z) (t : float) : float :=
  if PrimFloat.is_nan t || (df <=? 0) then PrimFloat.nan
  else student_cdf df t.

(** [ttest_1samp(a, popmean, alternative='less')]: statistic and
    p-value. *)
Definition ttest_1samp_less (a : list float) (popmean : float)
  : float * float :=
  let df := Z.of_nat (length a) - 1 in
  let t := t_statistic a popmean in
  (t, stdtr df t).

(** Lines 67-71. *)
Definition t_stats (head_stats : list head_stat) : list t_stat :=
  let impacts := impacts_of head_stats in
  (fun '(layer, head, impact, snr) =>
     let '(t_stat, p_val) := ttest_1samp_less impacts impact in
     (layer, head, impact, snr, p_val)) <$> head_stats.

End SignificanceTest.

(** ** The selection of sensitive heads (lines 76-79) *)

(** [if p_val < 0.01 and snr > 2.0] *)
Definition is_sensitive (stat : t_stat) : bool :=
  let '(layer, head, impact, snr, p_val) := stat in
  (p_val <? 0.01)%float && (2.0 <? snr)%float.

(** The list comprehension of lines 76-79. *)
Fixpoint sensitive_heads (t_stats : list t_stat) : list (nat * nat) :=
  match t_stats with
  | [] => []
  | (layer, head, impact, snr, p_val) :: rest =>
      if (p_val <? 0.01)%float && (2.0 <? snr)%float
      then (layer, head) :: sensitive_heads rest
      else sensitive_heads rest
  end.

(** ** The model collaborator *)

(** The dict returned by [analyze_protein]. *)
Record analysis : Set := Analysis {
  impacts : tensor;
  snrs : tensor;
  p_values : tensor
}.

(** The methods of [AllosticHeadAnalyzer] that [main] calls. *)
Record Analyzer : Type := {
  analyze_protein : string -> list Z -> analysis;
  get_attention_maps : string -> tensor;
  compute_accumulated_average_attention :
    tensor -> string -> list Z -> list (nat * nat) -> gmap Z Q
}.

(** ** The percentile (line 100) *)

Definition Qltb (x y : Q) : bool := negb (Qle_bool y x).

#[local] Instance Qle_dec : RelDecision Qle.
Proof.
  intros x y. destruct (Qlt_le_dec y x) as [H|H].
  - right. apply Qlt_not_le, H.
  - left. exact H.
Defined.

(** numpy's [_lerp(a, b, t)]. *)
Definition lerp (a b t : Q) : Q :=
  let diff_b_a := (b - a)%Q in
  if Qle_bool (1 # 2) t
  then (b - diff_b_a * (1 - t))%Q
  else (a + diff_b_a * t)%Q.

(** [np.percentile(a, q)] with the default method ['linear'], after numpy's
    [_quantile]: the virtual index [(n - 1) * q / 100], its two neighbouring
    indices (both the last one when the virtual index reaches [n - 1], both
    the first one when it is negative), the array ordered, the look at the
    last element for NaN, which raises IndexError on the empty array, and the
    interpolation between the two neighbours. *)
Definition np_percentile (a : list Q) (q : Q) : result Q :=
  let values_count := Z.of_nat (length a) in
  let quantile := (q / 100)%Q in
  let virtual_index := (inject_Z (values_count - 1) * quantile)%Q in
  let previous_index := Qfloor virtual_index in
  let next_index := previous_index + 1 in
  let '(previous_index, next_index) :=
    if Qle_bool (inject_Z (values_count - 1)) virtual_index
    then (-1, -1) else (previous_index, next_index) in
  let '(previous_index, next_index) :=
    if Qltb virtual_index 0 then (0, 0) else (previous_index, next_index) in
  let arr := merge_sort Qle a in
  _ <-? py_index arr (-1);
  previous <-? py_index arr previous_index;
  next <-? py_index arr next_index;
  let gamma := (virtual_index - inject_Z previous_index)%Q in
  Ok (lerp previous next gamma).

(** What the specification asks of the threshold: the 95th percentile by
    linear interpolation between order statistics. With [s] the values in
    ascending order and [h = 0.95 * (n - 1)], it is
    [s[floor h] + (h - floor h) * (s[floor h + 1] - s[floor h])], the upper
    neighbour being the last value when [floor h + 1] is past the end. *)
Definition linear_percentile_95 (values : list Q) (p : Q) : Prop :=
  exists (s : list Q) (lo : nat) (g x y : Q),
    s ≡ₚ values /\
    Sorted Qle s /\
    (0 <= g)%Q /\ (g < 1)%Q /\
    (inject_Z (Z.of_nat lo) + g == (95 # 100) * inject_Z (Z.of_nat (length values) - 1))%Q /\
    s !! lo = Some x /\
    s !! (lo + 1 `min` (length values - 1))%nat = Some y /\
    (p == x + g * (y - x))%Q.

(** ** The report (lines 99-111) *)

Inductive cell : Set :=
  | CStr (s : string)
  | CInt (z : Z)
  | CNum (q : Q).

(** What the script writes into [attention_data/]. *)
Inductive artifact : Type :=
  | Csv (rows : list (list cell))
  | HeadInfo (sensitive : list (nat * nat))
             (impact_scores snr_values : gmap string float)
  | TensorFile (t : tensor).

Definition csv_file : string := "attention_data/accumulated_attention_a2a.csv".
Definition heads_file : string := "attention_data/sensitive_heads.pt".
Definition maps_file : string := "attention_data/sensitive_attention_maps.pt".

Definition csv_header : list cell :=
  [CStr "Residue"; CStr "Position"; CStr "AvgAccAtt"].

(** [open(path, mode='w')]: the file is created, or emptied. *)
Definition open_w (path : string) : prog (gmap string artifact) unit :=
  modify (fun fs => <[path := Csv []]> fs).

(** [writer.writerow(row)] *)
Definition writerow (path : string) (row : list cell)
  : prog (gmap string artifact) unit :=
  modify (fun fs =>
    alter (fun f => match f with
                    | Csv rows => Csv (rows ++ [row])
                    | other => other
                    end) path fs).

(** [torch.save(obj, path)] *)
Definition torch_save (obj : artifact) (path : string)
  : prog (gmap string artifact) unit :=
  modify (fun fs => <[path := obj]> fs).

(** [sorted(accumulated_attention.keys())] *)
Definition sorted_keys (accumulated_attention : gmap Z Q) : list Z :=
  merge_sort Z.le (map_to_list accumulated_attention).*1.

(** The body of the loop of lines 107-111. *)
Definition report_row (sequence : string) (accumulated_attention : gmap Z Q)
    (percentile_85 : Q) (i : Z) : prog (gmap string artifact) unit :=
  avg_attention <- lift (match accumulated_attention !! i with
                         | Some v => Ok v
                         | None => Raise KeyError
                         end) ;;
  if Qltb percentile_85 avg_attention
  then residue <- lift (str_index sequence (i - 1)) ;;
       writerow csv_file
         [CStr (String residue EmptyString); CInt i; CNum avg_attention]
  else ret tt.

(** Lines 99-111. The variable is called [percentile_85] in the script and
    holds the 95th percentile. *)
Definition report (sequence : string) (accumulated_attention : gmap Z Q)
  : prog (gmap string artifact) unit :=
  let attention_values := (map_to_list accumulated_attention).*2 in
  percentile_85 <- lift (np_percentile attention_values 95) ;;
  open_w csv_file ;;
  writerow csv_file csv_header ;;
  for_each (sorted_keys accumulated_attention)
    (report_row sequence accumulated_attention percentile_85).

(** The data row of a record [(residue, position, value)], line 111. *)
Definition record_row (r : ascii * Z * Q) : list cell :=
  [CStr (String r.1.1 EmptyString); CInt r.1.2; CNum r.2].

(** What the iteration for position [i] reports: its record when its value
    exceeds the threshold, nothing otherwise. *)
Definition reported (sequence : string) (accumulated_attention : gmap Z Q)
    (threshold : Q) (i : Z) : list (ascii * Z * Q) :=
  match accumulated_attention !! i, String.get (Z.to_nat (i - 1)) sequence with
  | Some v, Some c => if Qltb threshold v then [(c, i, v)] else []
  | _, _ => []
  end.

(** ** The mean map and the saved artefacts (lines 117-148) *)

(** [attention_maps[0, l, h]] *)
Definition attention_of (attention_maps : tensor) (lh : nat * nat)
  : result tensor :=
  batch <-? select attention_maps 0;
  layer <-? select batch lh.1;
  select layer lh.2.

(** [torch.mean(t, dim=0)]: the mean over the first axis, entry by entry. *)
Definition mean_dim0 (t : tensor) : result tensor :=
  match shape t with
  | [] => Raise IndexError
  | n :: rest =>
      let m := numel rest in
      Ok (Tensor rest
            ((fun j =>
                np_mean ((fun k => nth (k * m + j) (storage t) 0%float)
                           <$> seq 0 n))
               <$> seq 0 m))
  end.

(** [t.unsqueeze(0)] *)
Definition unsqueeze0 (t : tensor) : tensor :=
  Tensor (1%nat :: shape t) (storage t).

(** [torch.cat(ts, dim=0)]: the tensors agree on every axis but the first. *)
Definition cat0 (ts : list tensor) : result tensor :=
  match ts with
  | [] => Raise RuntimeError
  | t0 :: _ =>
      match shape t0 with
      | [] => Raise RuntimeError
      | _ :: rest =>
          if forallb (fun t => bool_decide (tail (shape t) = rest)
                               && negb (ndim t =? 0)%nat) ts
          then Ok (Tensor (sum_list ((fun t => hd 0%nat (shape t)) <$> ts) :: rest)
                     (concat (storage <$> ts)))
          else Raise RuntimeError
      end
  end.

(** Lines 117-124: under [if sensitive_heads:], the stack of the selected
    maps, its mean, and the three lists of scores of the selected heads.
    [None] when the branch is not taken. *)
Definition mean_map_stage
    (attention_maps impact_scores_tensor snr_values_tensor p_values_tensor : tensor)
    (sensitive : list (nat * nat)) : result (option tensor) :=
  match sensitive with
  | [] => Ok None
  | _ :: _ =>
      maps <-? rmap (attention_of attention_maps) sensitive;
      attention_stack <-? stack maps;
      mean_attention_map <-? mean_dim0 attention_stack;
      _ <-? rmap (fun lh => select2 impact_scores_tensor lh.1 lh.2) sensitive;
      _ <-? rmap (fun lh => select2 snr_values_tensor lh.1 lh.2) sensitive;
      _ <-? rmap (fun lh => select2 p_values_tensor lh.1 lh.2) sensitive;
      Ok (Some mean_attention_map)
  end.

(** [f"{l}_{h}"] *)
Definition head_key (lh : nat * nat) : string :=
  pretty lh.1 +:+ "_" +:+ pretty lh.2.

(** [{f"{l}_{h}": t[l][h].item() for (l, h) in sensitive_heads}], filling
    the dict [d]: a later pair with the same key overwrites an earlier one. *)
Fixpoint score_dict (t : tensor) (sensitive : list (nat * nat))
    (d : gmap string float) : result (gmap string float) :=
  match sensitive with
  | [] => Ok d
  | lh :: rest =>
      x <-? select2 t lh.1 lh.2;
      v <-? item x;
      score_dict t rest (<[head_key lh := v]> d)
  end.

(** Lines 138-148. *)
Definition save_stage
    (attention_maps impact_scores_tensor snr_values_tensor : tensor)
    (sensitive : list (nat * nat)) : prog (gmap string artifact) unit :=
  impact_scores <- lift (score_dict impact_scores_tensor sensitive ∅) ;;
  snr_values <- lift (score_dict snr_values_tensor sensitive ∅) ;;
  torch_save (HeadInfo sensitive impact_scores snr_values) heads_file ;;
  match sensitive with
  | [] => ret tt
  | _ :: _ =>
      sensitive_attention <-
        lift (rmap (fun lh => t <-? attention_of attention_maps lh;
                              Ok (unsqueeze0 t)) sensitive) ;;
      sensitive_attention_tensor <- lift (cat0 sensitive_attention) ;;
      torch_save (TensorFile sensitive_attention_tensor) maps_file
  end.

(** ** The script *)

(** What a run leaves in its local variables, as far as the properties
    below look at them. *)
Record locals : Type := Locals {
  l_head_stats : list head_stat;
  l_sensitive_heads : list (nat * nat);
  l_mean_attention_map : option tensor
}.

Section Main.

Variable student_cdf : Z -> float -> float.
Variable analyzer : Analyzer.

(** Lines 25-79: from the sequence and the sites to the sensitive heads.
    The tensor [results["p_values"]] is read (line 43) and not used; the
    two means of lines 73-74 are computed and read by nothing, and the
    printing is left out. *)
Definition selection (sequence : string) (allosteric_res : list Z)
  : result (list head_stat * list (nat * nat)) :=
  _ <-? allosteric_res_3l sequence allosteric_res;
  let results := analyze_protein analyzer sequence allosteric_res in
  let impact_scores_tensor := impacts results in
  let snr_values_tensor := snrs results in
  let p_values_tensor := p_values results in
  head_stats <-? head_stats impact_scores_tensor snr_values_tensor;
  let t_stats := t_stats student_cdf head_stats in
  Ok (head_stats, sensitive_heads t_stats).

(** [main()], for any sequence and list of sites in place of the two
    constants of lines 20-21. *)
Definition main (sequence : string) (allosteric_res : list Z)
  : prog (gmap string artifact) locals :=
  sel <- lift (selection sequence allosteric_res) ;;
  let '(head_stats, sensitive_heads) := sel in
  let results := analyze_protein analyzer sequence allosteric_res in
  let attention_maps := get_attention_maps analyzer sequence in
  let accumulated_attention :=
    compute_accumulated_average_attention analyzer
      attention_maps sequence allosteric_res sensitive_heads in
  report sequence accumulated_attention ;;
  mean_attention_map <-
    lift (mean_map_stage attention_maps (impacts results) (snrs results)
            (p_values results) sensitive_heads) ;;
  save_stage attention_maps (impacts results) (snrs results)
    sensitive_heads ;;
  ret (Locals head_stats sensitive_heads mean_attention_map).

End Main.

(** ** What the script expects of the collaborator *)

(** The impact and SNR grids are well-formed and of one shape [(L, H)]. *)
Definition grids_ok (r : analysis) (L H : nat) : Prop :=
  (tensor_wf (impacts r) /\ shape (impacts r) = [L; H]) /\
  (tensor_wf (snrs r) /\ shape (snrs r) = [L; H]).

(** The attention tensor is well-formed and of shape
    [[1, layers, heads, seq_len, seq_len]] (the comment of line 85). *)
Definition attention_ok (attention_maps : tensor) (L H S : nat) : Prop :=
  tensor_wf attention_maps /\
  shape attention_maps = [1%nat; L; H; S; S].

(** The accumulated attention is not empty and its keys are positions of
    the sequence. *)
Definition mapping_ok (sequence : string) (m : gmap Z Q) : Prop :=
  m <> ∅ /\
  forall i, is_Some (m !! i) -> 1 <= i <= Z.of_nat (String.length sequence).

(** ** Writes that do not look at the files *)




(** ** Strings without a given character *)

(** No character of [s] is [c]. *)
Fixpoint str_free (c : ascii) (s : string) : Prop :=
  match s with
  | EmptyString => True
  | String a s' => a <> c /\ str_free c s'
  end.

(** ** Files a computation may write *)

(** A computation that leaves every file outside [paths] as it found it,
    whatever its outcome. *)
Definition only_writes {A} (paths : list string)
    (m : prog (gmap string artifact) A) : Prop :=
  forall (fs : gmap string artifact) (path : string),
    path ∉ paths -> (m fs).1 !! path = fs !! path.

(** ** Sample inputs

    Small grids, a two-residue sequence and a stand-in collaborator, on
    which the properties below are instantiated. *)

Definition grid_1x1 : tensor := Tensor [1; 1]%nat [1.5]%float.
Definition grid_1x2 : tensor := Tensor [1; 2]%nat [1.5; 0.25]%float.
Definition grid_1x2' : tensor := Tensor [1; 2]%nat [3; 2]%float.
Definition grid_2x1 : tensor := Tensor [2; 1]%nat [1.5; 0.25]%float.

(** A step function in place of the Student distribution: 0 below 0 and 1
    from 0 on. *)
Definition sample_cdf (df : Z) (t : float) : float :=
  if (t <? 0)%float then 0%float else 1%float.

Definition sample_impacts : tensor := Tensor [1; 2]%nat [1; 5]%float.
Definition sample_snrs : tensor := Tensor [1; 2]%nat [3; 3]%float.
Definition sample_low_snrs : tensor := Tensor [1; 2]%nat [1; 1]%float.
Definition sample_p_values : tensor := Tensor [1; 2]%nat [0.5; 0.5]%float.
Definition sample_p_values' : tensor := Tensor [1; 2]%nat [0; 0]%float.
Definition sample_short_p_values : tensor := Tensor [1; 1]%nat [0.5]%float.

(** One layer, two heads, 2 by 2 maps. *)
Definition sample_attention : tensor :=
  Tensor [1; 1; 2; 2; 2]%nat
    [0.5; 0.5; 0.25; 0.75; 1; 0; 0.5; 0.5]%float.

Definition sample_accumulated : gmap Z Q :=
  <[1 := 1 # 10]> (<[2 := 9 # 10]> ∅).

Definition sample_sequence : string := "MP".


Definition sample_stats : list head_stat :=
  [(0%nat, 0%nat, 1%float, 3%float); (0%nat, 1%nat, 5%float, 3%float)].

Definition sample_analyzer (snr p_val : tensor) (acc : gmap Z Q) : Analyzer :=
  {| analyze_protein := fun _ _ => Analysis sample_impacts snr p_val;
     get_attention_maps := fun _ => sample_attention;
     compute_accumulated_average_attention := fun _ _ _ _ => acc |}.

(** * Properties *)

(** ** Tensors *)

Lemma select_wf (t : tensor) (d : nat) (rest : list nat) (i : nat) :
  tensor_wf t -> shape t = d :: rest -> (i < d)%nat ->
  exists t', select t i = Ok t' /\ shape t' = rest /\ tensor_wf t' /\
    storage t' = take (numel rest) (drop (i * numel rest) (storage t)).
Proof.
  intros Hwf Hsh Hi. unfold select. rewrite Hsh.
  destruct (Nat.ltb_spec i d) as [_|]; [|lia].
  eexists; split; [reflexivity|]. repeat split.
  unfold tensor_wf in *. cbn [storage shape].
  rewrite Hsh in Hwf. cbn [numel foldr] in Hwf. fold (numel rest) in Hwf.
  rewrite length_take, length_drop. nia.
Qed.

Lemma select_out_of_range (t : tensor) (d : nat) (rest : list nat) (i : nat) :
  shape t = d :: rest -> (d <= i)%nat -> select t i = Raise IndexError.
Proof.
  intros Hsh Hi. unfold select. rewrite Hsh.
  destruct (Nat.ltb_spec i d); [lia|reflexivity].
Qed.

Lemma take_one_drop (r : list float) (h : nat) :
  (h < length r)%nat -> take 1 (drop (h * 1) r) = [nth h r 0%float].
Proof.
  intros Hh. rewrite Nat.mul_1_r.
  destruct (lookup_lt_is_Some_2 r h Hh) as [x Hx].
  rewrite (drop_S _ _ _ Hx), (nth_lookup_Some _ _ _ _ Hx). reflexivity.
Qed.

(** Reading a cell of a well-formed grid succeeds and gives the entry. *)
Lemma select2_item (t : tensor) (L H l h : nat) :
  tensor_wf t -> shape t = [L; H] -> (l < L)%nat -> (h < H)%nat ->
  (x <-? select2 t l h; item x) = Ok (grid_at t l h).
Proof.
  intros Hwf Hsh Hl Hh. unfold select2.
  destruct (select_wf t L [H] l Hwf Hsh Hl) as (row & -> & Hrsh & Hrwf & Hrst).
  cbn [rbind].
  destruct (select_wf row H [] h Hrwf Hrsh Hh) as (c & -> & Hcsh & Hcwf & Hcst).
  cbn [rbind]. unfold item. rewrite Hcst. cbn [numel foldr].
  unfold tensor_wf in Hrwf. rewrite Hrsh in Hrwf. cbn [numel foldr] in Hrwf.
  rewrite take_one_drop by lia.
  f_equal. unfold grid_at. rewrite Hsh. cbn [nth].
  rewrite Hrst. cbn [numel foldr]. rewrite !nth_lookup.
  rewrite lookup_take_lt by lia. rewrite lookup_drop.
  do 2 f_equal. lia.
Qed.

(** Reading a cell outside a rank-2 grid raises IndexError. *)
Lemma select2_out_of_range (t : tensor) (L H l h : nat) :
  tensor_wf t -> shape t = [L; H] -> (L <= l \/ H <= h)%nat ->
  (x <-? select2 t l h; item x) = Raise IndexError.
Proof.
  intros Hwf Hsh Hout. unfold select2.
  destruct (Nat.lt_ge_cases l L) as [Hl|Hl].
  - destruct (select_wf t L [H] l Hwf Hsh Hl) as (row & -> & Hrsh & _).
    cbn [rbind]. rewrite (select_out_of_range row H [] h Hrsh) by lia.
    reflexivity.
  - rewrite (select_out_of_range t L [H] l Hsh Hl). reflexivity.
Qed.

(** ** Loops *)

(** A loop whose every iteration appends [f x] to the list and does not
    raise appends them all, in order. *)
Lemma for_each_append {A B} (l : list A) (body : A -> prog (list B) unit)
    (f : A -> list B) :
  (forall x s, x ∈ l -> body x s = (s ++ f x, Ok tt)) ->
  forall s, for_each l body s = (s ++ concat (f <$> l), Ok tt).
Proof.
  induction l as [|x l IH]; intros Hbody s.
  - cbn. rewrite app_nil_r. reflexivity.
  - cbn [for_each]. unfold bind at 1.
    rewrite Hbody by apply list_elem_of_here.
    rewrite IH by (intros; apply Hbody; apply list_elem_of_further; assumption).
    cbn. rewrite <- app_assoc. reflexivity.
Qed.

(** A loop stops at its first raising iteration, with the state the
    iterations before it built and what the raising one had appended. *)
Lemma for_each_raise {A B} (pre post : list A) (x : A)
    (body : A -> prog (list B) unit) (f : A -> list B) (part : list B)
    (e : exception) :
  (forall y s, y ∈ pre -> body y s = (s ++ f y, Ok tt)) ->
  (forall s, body x s = (s ++ part, Raise e)) ->
  forall s, for_each (pre ++ x :: post) body s
            = (s ++ concat (f <$> pre) ++ part, Raise e).
Proof.
  induction pre as [|y pre IH]; intros Hpre Hx s.
  - cbn. unfold bind. rewrite Hx. reflexivity.
  - cbn [for_each app]. unfold bind at 1.
    rewrite Hpre by apply list_elem_of_here.
    rewrite IH; [|intros; apply Hpre; apply list_elem_of_further; assumption|assumption].
    cbn. rewrite <- !app_assoc. reflexivity.
Qed.

(** ** The head-statistics table *)

Lemma concat_row {B} (g : nat * nat -> B) (l : nat) (hs : list nat) :
  concat ((fun h => [g (l, h)]) <$> hs) = g <$> ((fun h => (l, h)) <$> hs).
Proof.
  induction hs as [|h hs IH]; cbn; [reflexivity|]. f_equal. exact IH.
Qed.

Lemma concat_rows {B} (g : nat * nat -> B) (ls hs : list nat) :
  concat ((fun l => concat ((fun h => [g (l, h)]) <$> hs)) <$> ls)
  = g <$> (l ← ls; (fun h => (l, h)) <$> hs).
Proof.
  induction ls as [|l ls IH]; cbn; [reflexivity|].
  rewrite fmap_app, concat_row. f_equal. exact IH.
Qed.

Section HeadStats.

Variables impact snr : tensor.
Variables L H L' H' : nat.
Hypothesis impact_wf : tensor_wf impact.
Hypothesis snr_wf : tensor_wf snr.
Hypothesis impact_shape : shape impact = [L; H].
Hypothesis snr_shape : shape snr = [L'; H'].

Lemma head_stats_body_ok (l h : nat) (s : list head_stat) :
  (l < L)%nat -> (h < H)%nat -> (l < L')%nat -> (h < H')%nat ->
  head_stats_body impact snr l h s = (s ++ [stat_of impact snr (l, h)], Ok tt).
Proof.
  intros. unfold head_stats_body, bind, lift, modify.
  rewrite (select2_item impact L H), (select2_item snr L' H') by assumption.
  reflexivity.
Qed.

Lemma head_stats_body_raise (l h : nat) (s : list head_stat) :
  (l < L)%nat -> (h < H)%nat -> (L' <= l \/ H' <= h)%nat ->
  head_stats_body impact snr l h s = (s, Raise IndexError).
Proof.
  intros. unfold head_stats_body, bind, lift, modify.
  rewrite (select2_item impact L H) by assumption.
  rewrite (select2_out_of_range snr L' H') by assumption.
  reflexivity.
Qed.

(** The inner loop over a layer that the SNR grid covers. *)
Lemma head_stats_row_ok (l : nat) (s : list head_stat) :
  (l < L)%nat -> (l < L')%nat -> (H <= H')%nat ->
  for_each (seq 0 H) (fun head => head_stats_body impact snr l head) s
  = (s ++ concat ((fun h => [stat_of impact snr (l, h)]) <$> seq 0 H), Ok tt).
Proof.
  intros. apply for_each_append. intros h s' Hh.
  apply elem_of_seq in Hh. apply head_stats_body_ok; lia.
Qed.

(** The inner loop stops at the first head [h0] that the SNR grid lacks. *)
Lemma head_stats_row_raise (l h0 : nat) (s : list head_stat) :
  (l < L)%nat -> (h0 < H)%nat ->
  (forall h, h < h0 -> h < H')%nat -> (L' <= l \/ H' <= h0)%nat ->
  (h0 = 0 \/ l < L')%nat ->
  for_each (seq 0 H) (fun head => head_stats_body impact snr l head) s
  = (s ++ concat ((fun h => [stat_of impact snr (l, h)]) <$> seq 0 h0) ++ [],
     Raise IndexError).
Proof.
  intros Hl Hh0 Hbefore Hout Hrow.
  replace H with (h0 + S (H - h0 - 1))%nat at 1 by lia.
  rewrite seq_app. cbn [seq]. rewrite Nat.add_0_l.
  apply for_each_raise.
  - intros h s' Hh. apply elem_of_seq in Hh.
    apply head_stats_body_ok; try lia. apply Hbefore. lia.
  - intros s'. rewrite app_nil_r. apply head_stats_body_raise; assumption.
Qed.

End HeadStats.

(** Grids that the SNR grid covers: the table is the row-major list of the
    records of the impact grid's cells. *)
Lemma head_stats_run_covering (impact snr : tensor) (L H L' H' : nat) :
  tensor_wf impact -> tensor_wf snr ->
  shape impact = [L; H] -> shape snr = [L'; H'] ->
  (L <= L')%nat -> (H <= H')%nat ->
  head_stats_run impact snr
  = (stat_of impact snr <$> row_major L H, Ok tt).
Proof.
  intros Hiw Hsw His Hss HL HH. unfold head_stats_run, ndim.
  rewrite His, Hss. cbn [length Nat.eqb negb].
  unfold head_stats_loop, row_major.
  rewrite (for_each_append _ _
             (fun l => concat ((fun h => [stat_of impact snr (l, h)]) <$> seq 0 H))).
  - rewrite app_nil_l, concat_rows. reflexivity.
  - intros l s Hl. apply elem_of_seq in Hl.
    apply (head_stats_row_ok impact snr L H L' H'); auto; lia.
Qed.

Lemma row_major_length (L H : nat) : length (row_major L H) = (L * H)%nat.
Proof.
  unfold row_major.
  assert (Hls : forall ls : list nat,
             length (l ← ls; (fun h => (l, h)) <$> seq 0 H)
             = (length ls * H)%nat).
  { induction ls as [|l ls IH]; [reflexivity|].
    rewrite bind_cons, length_app, length_fmap, length_seq, IH. cbn. lia. }
  rewrite Hls, length_seq. reflexivity.
Qed.

Lemma row_major_elem (L H l h : nat) :
  (l, h) ∈ row_major L H <-> (l < L)%nat /\ (h < H)%nat.
Proof.
  unfold row_major. rewrite list_elem_of_bind. split.
  - intros (l' & Hin & Hl'). apply list_elem_of_fmap in Hin as (h' & Heq & Hh').
    apply elem_of_seq in Hl'. apply elem_of_seq in Hh'.
    injection Heq as -> ->. lia.
  - intros [Hl Hh]. exists l. split.
    + apply list_elem_of_fmap. exists h. split; [reflexivity|].
      apply elem_of_seq. lia.
    + apply elem_of_seq. lia.
Qed.

Lemma row_major_NoDup (L H : nat) : NoDup (row_major L H).
Proof.
  unfold row_major. apply NoDup_bind.
  - intros l1 l2 [l h] _ _ H1 H2.
    apply list_elem_of_fmap in H1 as (? & [= -> ->] & _).
    apply list_elem_of_fmap in H2 as (? & [= -> _] & _). reflexivity.
  - intros l _. apply NoDup_fmap_2; [|apply NoDup_seq].
    intros h1 h2 [= ->]. reflexivity.
  - apply NoDup_seq.
Qed.

Lemma stat_key_stat_of (impact snr : tensor) (cells : list (nat * nat)) :
  stat_key <$> (stat_of impact snr <$> cells) = cells.
Proof.
  rewrite <- list_fmap_compose. rewrite <- (list_fmap_id cells) at 2.
  apply list_fmap_ext. intros _ [l h] _. reflexivity.
Qed.

(** C5. For two well-formed rank-2 grids of the same shape [(L, H)] the
    table is built without an exception and has exactly [L * H] records, the
    record of every cell [(layer, head)] with [layer < L] and [head < H]
    once and no other, in row-major order, each with the impact and the SNR
    of its cell. *)
Theorem head_stats_one_record_per_cell (impact snr : tensor) (L H : nat) :
  tensor_wf impact -> tensor_wf snr ->
  shape impact = [L; H] -> shape snr = [L; H] ->
  exists stats : list head_stat,
    head_stats impact snr = Ok stats /\
    length stats = (L * H)%nat /\
    stat_key <$> stats = row_major L H /\
    NoDup (stat_key <$> stats) /\
    (forall l h, (l, h) ∈ stat_key <$> stats <-> (l < L)%nat /\ (h < H)%nat) /\
    (forall k l h, (stat_key <$> stats) !! k = Some (l, h) ->
       stats !! k = Some (l, h, grid_at impact l h, grid_at snr l h)).
Proof.
  intros Hiw Hsw His Hss.
  exists (stat_of impact snr <$> row_major L H).
  unfold head_stats.
  rewrite (head_stats_run_covering impact snr L H L H) by (auto; lia).
  rewrite stat_key_stat_of, length_fmap, row_major_length.
  split_and!; auto using row_major_NoDup.
  - intros l h. apply row_major_elem.
  - intros k l h Hk. rewrite list_lookup_fmap, Hk. reflexivity.
Qed.

Lemma head_stats_one_record_per_cell_witness :
  exists stats : list head_stat,
    head_stats grid_1x2 grid_1x2' = Ok stats /\
    length stats = (1 * 2)%nat /\
    stat_key <$> stats = row_major 1 2 /\
    NoDup (stat_key <$> stats) /\
    (forall l h, (l, h) ∈ stat_key <$> stats <-> (l < 1)%nat /\ (h < 2)%nat) /\
    (forall k l h, (stat_key <$> stats) !! k = Some (l, h) ->
       stats !! k = Some (l, h, grid_at grid_1x2 l h, grid_at grid_1x2' l h)).
Proof.
  apply (head_stats_one_record_per_cell grid_1x2 grid_1x2' 1 2); reflexivity.
Defined.

(** Grids of which the SNR grid lacks a cell: the loops stop with
    IndexError at the first such cell in row-major order, the records of the
    cells before it having been appended. *)
Lemma head_stats_run_missing_cell (impact snr : tensor) (L H L' H' : nat) :
  tensor_wf impact -> tensor_wf snr ->
  shape impact = [L; H] -> shape snr = [L'; H'] ->
  (exists l h, l < L /\ h < H /\ (L' <= l \/ H' <= h))%nat ->
  exists l0 h0 : nat,
    (l0 < L)%nat /\ (h0 < H)%nat /\ (L' <= l0 \/ H' <= h0)%nat /\
    head_stats_run impact snr
    = (stat_of impact snr
         <$> (row_major l0 H ++ ((fun h => (l0, h)) <$> seq 0 h0)),
       Raise IndexError).
Proof.
  intros Hiw Hsw His Hss (l & h & Hl & Hh & Hout).
  set (l0 := if (H' <? H)%nat then 0%nat else L').
  set (h0 := if ((H' <? H) && (0 <? L'))%nat then H' else 0%nat).
  assert (Hl0 : (l0 < L)%nat).
  { unfold l0. destruct (Nat.ltb_spec H' H); lia. }
  assert (Hh0 : (h0 < H)%nat).
  { unfold h0. destruct (Nat.ltb_spec H' H), (Nat.ltb_spec 0 L'); cbn; lia. }
  assert (Hmiss : (L' <= l0 \/ H' <= h0)%nat).
  { unfold l0, h0. destruct (Nat.ltb_spec H' H), (Nat.ltb_spec 0 L'); cbn; lia. }
  exists l0, h0. split_and!; try assumption.
  unfold head_stats_run, ndim. rewrite His, Hss. cbn [length Nat.eqb negb].
  unfold head_stats_loop.
  replace L with (l0 + S (L - l0 - 1))%nat at 1 by lia.
  rewrite seq_app. cbn [seq]. rewrite Nat.add_0_l.
  rewrite (for_each_raise _ _ _ _
             (fun l => concat ((fun h => [stat_of impact snr (l, h)]) <$> seq 0 H))
             (concat ((fun h => [stat_of impact snr (l0, h)]) <$> seq 0 h0) ++ [])
             IndexError).
  - rewrite app_nil_l, app_nil_r, concat_rows, concat_row, fmap_app.
    reflexivity.
  - intros l1 s Hl1. apply elem_of_seq in Hl1.
    apply (head_stats_row_ok impact snr L H L' H'); auto; try lia;
      unfold l0 in Hl1; destruct (Nat.ltb_spec H' H); lia.
  - intros s. apply (head_stats_row_raise impact snr L H L' H'); auto.
    + intros h1 Hh1. unfold h0 in Hh1.
      destruct (Nat.ltb_spec H' H), (Nat.ltb_spec 0 L'); cbn in Hh1; lia.
    + unfold l0, h0.
      destruct (Nat.ltb_spec H' H), (Nat.ltb_spec 0 L'); cbn; lia.
Qed.

(** C4, as the specification states it, fails: an impact grid of shape
    (1, 1) and an SNR grid of shape (1, 2) differ in shape, and the table is
    built all the same, from the cells the impact grid has. *)
Lemma shape_mismatch_accepted :
  shape grid_1x1 <> shape grid_1x2' /\
  tensor_wf grid_1x1 /\ tensor_wf grid_1x2' /\
  head_stats grid_1x1 grid_1x2' = Ok [(0%nat, 0%nat, 1.5%float, 3%float)].
Proof. split_and!; [discriminate|reflexivity..]. Qed.

(** C4, amended. The shapes of the two grids are never compared. A grid
    that is not of rank 2 fails an assertion before any statistic is
    computed. For two well-formed rank-2 grids, an SNR grid with at least as
    many layers and heads as the impact grid is accepted, its surplus cells
    ignored; an SNR grid that lacks a cell of the impact grid makes the loop
    raise IndexError at the first such cell, after the records of the cells
    before it were computed. *)
Theorem head_stats_shape_handling (impact snr : tensor) :
  (ndim impact <> 2%nat \/ ndim snr <> 2%nat ->
   head_stats_run impact snr = ([], Raise AssertionError)) /\
  (forall L H L' H' : nat,
     tensor_wf impact -> tensor_wf snr ->
     shape impact = [L; H] -> shape snr = [L'; H'] ->
     ((L <= L')%nat /\ (H <= H')%nat ->
      head_stats impact snr = Ok (stat_of impact snr <$> row_major L H)) /\
     ((exists l h, l < L /\ h < H /\ (L' <= l \/ H' <= h))%nat ->
      head_stats impact snr = Raise IndexError /\
      exists l0 h0 : nat,
        (l0 < L)%nat /\ (h0 < H)%nat /\ (L' <= l0 \/ H' <= h0)%nat /\
        head_stats_run impact snr
        = (stat_of impact snr
             <$> (row_major l0 H ++ ((fun h => (l0, h)) <$> seq 0 h0)),
           Raise IndexError))).
Proof.
  split.
  - intros Hrank. unfold head_stats_run, ndim in *.
    destruct (shape impact) as [|L [|H [|? ?]]]; try reflexivity.
    destruct (Nat.eqb_spec (length (shape snr)) 2) as [Hs|Hs]; cbn [negb];
      [|reflexivity].
    cbn in Hrank. tauto.
  - intros L H L' H' Hiw Hsw His Hss. split.
    + intros [HL HH]. unfold head_stats.
      rewrite (head_stats_run_covering impact snr L H L' H') by assumption.
      reflexivity.
    + intros Hmiss.
      destruct (head_stats_run_missing_cell impact snr L H L' H')
        as (l0 & h0 & ? & ? & ? & Hrun); try assumption.
      split; [unfold head_stats; rewrite Hrun; reflexivity|].
      exists l0, h0. auto.
Qed.

Lemma head_stats_shape_handling_witness :
  head_stats_run (Tensor [2]%nat [1; 2]%float) grid_1x1
    = ([], Raise AssertionError) /\
  head_stats grid_1x1 grid_1x2'
    = Ok (stat_of grid_1x1 grid_1x2' <$> row_major 1 1) /\
  head_stats grid_2x1 grid_1x2' = Raise IndexError.
Proof.
  pose proof (head_stats_shape_handling (Tensor [2]%nat [1; 2]%float) grid_1x1)
    as [Hrank _].
  pose proof (head_stats_shape_handling grid_1x1 grid_1x2') as [_ Hcover].
  pose proof (head_stats_shape_handling grid_2x1 grid_1x2') as [_ Hmiss].
  split_and!.
  - apply Hrank. left. cbn. lia.
  - apply (Hcover 1 1 1 2)%nat; try reflexivity. lia.
  - apply (Hmiss 2 1 1 2)%nat; try reflexivity.
    exists 1%nat, 0%nat. lia.
Defined.

(** ** The selection *)

Lemma sensitive_heads_filter (ts : list t_stat) :
  sensitive_heads ts = t_key <$> filter (fun s => is_sensitive s = true) ts.
Proof.
  induction ts as [|[[[[l h] impact] snr] p] ts IH]; [reflexivity|].
  cbn [sensitive_heads]. rewrite filter_cons.
  destruct (decide (is_sensitive (l, h, impact, snr, p) = true)) as [Hs|Hs];
    unfold is_sensitive in Hs.
  - rewrite Hs. cbn. f_equal. exact IH.
  - apply not_true_is_false in Hs. rewrite Hs. exact IH.
Qed.

(** C1. The selected list is the input list filtered by
    [p_val < 0.01 and snr > 2.0] and projected on [(layer, head)]: a pair is
    selected exactly when a record of it passes both strict tests, the
    selected pairs keep the order of the input, a record with SNR exactly
    2.0 is left out whatever its p-value, and one with SNR 2.0001 and
    p-value 0.0099 is taken. *)
Theorem sensitive_heads_exact (ts : list t_stat) :
  sensitive_heads ts = t_key <$> filter (fun s => is_sensitive s = true) ts /\
  (forall l h : nat,
     (l, h) ∈ sensitive_heads ts <->
     exists impact snr p_val : float,
       (l, h, impact, snr, p_val) ∈ ts /\
       (p_val <? 0.01)%float = true /\ (2.0 <? snr)%float = true) /\
  sensitive_heads ts `sublist_of` t_key <$> ts /\
  (forall (l h : nat) (impact p_val : float),
     sensitive_heads [(l, h, impact, 2.0%float, p_val)] = []) /\
  (forall (l h : nat) (impact : float),
     sensitive_heads [(l, h, impact, 2.0001%float, 0.0099%float)] = [(l, h)]).
Proof.
  split_and!.
  - apply sensitive_heads_filter.
  - intros l h. rewrite sensitive_heads_filter, list_elem_of_fmap. split.
    + intros ([[[[l' h'] impact] snr] p] & [= -> ->] & Hin).
      apply list_elem_of_filter in Hin as [Hs Hin].
      unfold is_sensitive in Hs. apply andb_true_iff in Hs as [Hp Hsnr].
      exists impact, snr, p. auto.
    + intros (impact & snr & p & Hin & Hp & Hsnr).
      exists (l, h, impact, snr, p). split; [reflexivity|].
      apply list_elem_of_filter. split; [|assumption].
      unfold is_sensitive. rewrite Hp, Hsnr. reflexivity.
  - rewrite sensitive_heads_filter. apply fmap_sublist, sublist_filter.
  - intros l h impact p. cbn [sensitive_heads].
    replace (2 <? 2)%float with false by reflexivity.
    rewrite andb_false_r. reflexivity.
  - intros l h impact. reflexivity.
Qed.

(** ** Residue names *)

Lemma str_index_out_of_range (s : string) (i : Z) :
  Z.of_nat (String.length s) <= i \/ i < - Z.of_nat (String.length s) ->
  str_index s i = Raise IndexError.
Proof.
  intros Hi. unfold str_index.
  destruct (Z.ltb_spec i 0); cbn zeta.
  - destruct (Z.leb_spec 0 (i + Z.of_nat (String.length s))); [lia|reflexivity].
  - destruct (Z.leb_spec 0 i); [|lia].
    destruct (Z.ltb_spec i (Z.of_nat (String.length s))); [lia|reflexivity].
Qed.

Lemma rmap_raise {A B} (f : A -> result B) (pre post : list A) (x : A)
    (e : exception) :
  is_ok (rmap f pre) = true -> f x = Raise e ->
  rmap f (pre ++ x :: post) = Raise e.
Proof.
  intros Hpre Hx. induction pre as [|y pre IH]; cbn.
  - rewrite Hx. reflexivity.
  - cbn in Hpre. destruct (f y); [|discriminate]. cbn in *.
    destruct (rmap f pre); [|discriminate]. rewrite IH; reflexivity.
Qed.

Lemma string_get_in_range (s : string) (n : nat) :
  (n < String.length s)%nat -> exists c, String.get n s = Some c.
Proof.
  revert n. induction s as [|a s IH]; intros n Hn; cbn in *; [lia|].
  destruct n as [|n]; [eauto|]. apply IH. lia.
Qed.

(** A position from [-len(sequence) + 1] to 0 is not rejected by the
    indexing: [sequence[p - 1]] counts from the end of the sequence. *)
Lemma str_index_wraps (s : string) (p : Z) :
  - Z.of_nat (String.length s) < p <= 0 ->
  exists c, String.get (Z.to_nat (Z.of_nat (String.length s) + p - 1)) s = Some c /\
            str_index s (p - 1) = Ok c.
Proof.
  intros Hp.
  destruct (string_get_in_range s (Z.to_nat (Z.of_nat (String.length s) + p - 1)))
    as [c Hc]; [lia|].
  exists c. split; [exact Hc|]. unfold str_index.
  destruct (Z.ltb_spec (p - 1) 0); [|lia]. cbn zeta.
  destruct (Z.leb_spec 0 (p - 1 + Z.of_nat (String.length s))); [|lia].
  destruct (Z.ltb_spec (p - 1 + Z.of_nat (String.length s))
              (Z.of_nat (String.length s))); [|lia].
  cbn [andb].
  replace (p - 1 + Z.of_nat (String.length s))
    with (Z.of_nat (String.length s) + p - 1) by lia.
  rewrite Hc. reflexivity.
Qed.

(** C9, as the specification states it, fails: positions 0 and -1 are
    outside [1 .. len(sequence)], and the lookup wraps around to the last
    and the last but one residue instead of raising. *)
Lemma position_zero_wraps_around :
  ~ (1 <= 0 <= Z.of_nat (String.length sequence_2YDO)) /\
  allosteric_res_3l sequence_2YDO [0; -1] = Ok ["Gln"; "Phe"]%string.
Proof. split; [lia|reflexivity]. Qed.

(** C9, amended. A requested position above [len(sequence)], or at or below
    [-len(sequence)], makes the residue-name lookup raise IndexError, and
    with it the run, which writes nothing, provided the positions before it
    in the list were looked up without an exception. (A position from
    [-len(sequence) + 1] to 0 is not rejected.) *)
Theorem residue_lookup_out_of_bounds (cdf : Z -> float -> float)
    (analyzer : Analyzer) (sequence : string) (pre post : list Z) (p : Z)
    (fs : gmap string artifact) :
  Z.of_nat (String.length sequence) < p \/
    p <= - Z.of_nat (String.length sequence) ->
  is_ok (allosteric_res_3l sequence pre) = true ->
  allosteric_res_3l sequence (pre ++ p :: post) = Raise IndexError /\
  main cdf analyzer sequence (pre ++ p :: post) fs = (fs, Raise IndexError).
Proof.
  intros Hp Hpre.
  assert (Hlookup : allosteric_res_3l sequence (pre ++ p :: post)
                    = Raise IndexError).
  { apply rmap_raise; [exact Hpre|]. unfold residue_3l.
    rewrite str_index_out_of_range by lia. reflexivity. }
  split; [exact Hlookup|].
  unfold main, bind, lift, selection. rewrite Hlookup. reflexivity.
Qed.

Lemma residue_lookup_out_of_bounds_witness :
  allosteric_res_3l sequence_2YDO ([169; 253] ++ 326 :: [278])
    = Raise IndexError /\
  main sample_cdf (sample_analyzer sample_snrs sample_p_values sample_accumulated)
    sequence_2YDO ([169; 253] ++ 326 :: [278]) ∅ = (∅, Raise IndexError).
Proof.
  apply (residue_lookup_out_of_bounds sample_cdf
           (sample_analyzer sample_snrs sample_p_values sample_accumulated)
           sequence_2YDO [169; 253] [278] 326 ∅).
  - left. vm_compute. reflexivity.
  - vm_compute. reflexivity.
Defined.

(** ** Independence of the collaborator's p-values *)

(** C10. Two collaborators that return the same impact and SNR grids for
    a sequence and its sites, whatever p-values tensors they return, lead to
    the same table and the same selected heads (or to the same exception):
    the selection reads the p-values of the t-test it runs itself. *)
Theorem selection_ignores_supplied_p_values (cdf : Z -> float -> float)
    (analyzer1 analyzer2 : Analyzer) (sequence : string)
    (allosteric_res : list Z) :
  impacts (analyze_protein analyzer1 sequence allosteric_res)
    = impacts (analyze_protein analyzer2 sequence allosteric_res) ->
  snrs (analyze_protein analyzer1 sequence allosteric_res)
    = snrs (analyze_protein analyzer2 sequence allosteric_res) ->
  selection cdf analyzer1 sequence allosteric_res
    = selection cdf analyzer2 sequence allosteric_res.
Proof.
  intros Himpacts Hsnrs. unfold selection.
  rewrite Himpacts, Hsnrs. reflexivity.
Qed.

Lemma selection_ignores_supplied_p_values_witness :
  p_values (analyze_protein
              (sample_analyzer sample_snrs sample_p_values sample_accumulated)
              sample_sequence [1])
    <> p_values (analyze_protein
                   (sample_analyzer sample_snrs sample_p_values' sample_accumulated)
                   sample_sequence [1]) /\
  selection sample_cdf
    (sample_analyzer sample_snrs sample_p_values sample_accumulated)
    sample_sequence [1]
  = selection sample_cdf
      (sample_analyzer sample_snrs sample_p_values' sample_accumulated)
      sample_sequence [1].
Proof.
  split; [discriminate|].
  apply (selection_ignores_supplied_p_values sample_cdf
           (sample_analyzer sample_snrs sample_p_values sample_accumulated)
           (sample_analyzer sample_snrs sample_p_values' sample_accumulated)
           sample_sequence [1]); reflexivity.
Defined.

(** ** The significance test *)


Lemma t_stats_keys (cdf : Z -> float -> float) (hs : list head_stat) :
  t_key <$> t_stats cdf hs = stat_key <$> hs.
Proof.
  unfold t_stats. rewrite <- list_fmap_compose.
  apply list_fmap_ext. intros _ [[[l h] impact] snr] _. reflexivity.
Qed.

Lemma t_stats_elem (cdf : Z -> float -> float) (hs : list head_stat)
    (l h : nat) (impact snr p : float) :
  (l, h, impact, snr, p) ∈ t_stats cdf hs ->
  (l, h, impact, snr) ∈ hs /\
  p = stdtr cdf (Z.of_nat (length hs) - 1) (t_statistic (impacts_of hs) impact).
Proof.
  unfold t_stats. intros Hin.
  apply list_elem_of_fmap in Hin as ([[[l' h'] impact'] snr'] & Heq & Hin).
  lazy beta iota zeta delta [ttest_1samp_less] in Heq.
  injection Heq as -> -> -> -> ->.
  split; [assumption|]. unfold impacts_of at 1. rewrite length_fmap.
  reflexivity.
Qed.





(** ** The percentile *)

Lemma py_index_nonneg {A} (l : list A) (i : Z) :
  0 <= i < Z.of_nat (length l) ->
  exists x, l !! Z.to_nat i = Some x /\ py_index l i = Ok x.
Proof.
  intros Hi. destruct (lookup_lt_is_Some_2 l (Z.to_nat i)) as [x Hx]; [lia|].
  exists x. split; [exact Hx|]. unfold py_index.
  destruct (Z.ltb_spec i 0); [lia|]. cbn zeta.
  destruct (Z.leb_spec 0 i); [|lia].
  destruct (Z.ltb_spec i (Z.of_nat (length l))); [|lia].
  cbn [andb]. rewrite Hx. reflexivity.
Qed.

Lemma py_index_last {A} (l : list A) :
  l <> [] ->
  exists x, l !! (length l - 1)%nat = Some x /\ py_index l (-1) = Ok x.
Proof.
  intros Hl. assert (0 < length l)%nat by (destruct l; [congruence|cbn; lia]).
  destruct (lookup_lt_is_Some_2 l (length l - 1)) as [x Hx]; [lia|].
  exists x. split; [exact Hx|]. unfold py_index. cbn [Z.ltb Z.compare].
  destruct (Z.leb_spec 0 (-1 + Z.of_nat (length l))); [|lia].
  destruct (Z.ltb_spec (-1 + Z.of_nat (length l)) (Z.of_nat (length l))); [|lia].
  cbn [andb].
  replace (Z.to_nat (-1 + Z.of_nat (length l))) with (length l - 1)%nat by lia.
  rewrite Hx. reflexivity.
Qed.

#[local] Instance Qle_total : Total Qle.
Proof.
  intros x y. destruct (Qlt_le_dec x y) as [H|H]; [left|right]; [|exact H].
  apply Qlt_le_weak, H.
Qed.

Lemma lerp_linear (a b t : Q) : (lerp a b t == a + t * (b - a))%Q.
Proof. unfold lerp. destruct (Qle_bool (1 # 2) t); ring. Qed.

(** On a non-empty list [np.percentile(a, 95)] does not raise, and its
    value is the linear interpolation between the two order statistics
    around the virtual index [0.95 * (n - 1)]. *)
Lemma np_percentile_linear (a : list Q) :
  a <> [] ->
  exists p : Q, np_percentile a 95 = Ok p /\ linear_percentile_95 a p.
Proof.
  intros Ha.
  assert (Hn : (1 <= length a)%nat) by (destruct a; [congruence|cbn; lia]).
  pose proof (merge_sort_Permutation Qle a) as Hperm.
  pose proof (Sorted_merge_sort Qle a) as Hsorted.
  assert (Hlen : length (merge_sort Qle a) = length a)
    by (apply Permutation_length, Hperm).
  assert (Harr : merge_sort Qle a <> [])
    by (intros E; rewrite E in Hlen; cbn in Hlen; lia).
  unfold np_percentile.
  set (arr := merge_sort Qle a) in *.
  set (c := inject_Z (Z.of_nat (length a) - 1)).
  set (vi := (c * (95 / 100))%Q).
  assert (Hc : (0 <= c)%Q).
  { unfold c. change 0%Q with (inject_Z 0). rewrite <- Zle_Qle. lia. }
  assert (Hvi : (vi == c * (95 # 100))%Q) by (unfold vi; field).
  assert (Hvi0 : (0 <= vi)%Q) by lra.
  assert (Hlow : Qltb vi 0 = false).
  { unfold Qltb. apply negb_false_iff, Qle_bool_iff, Hvi0. }
  destruct (py_index_last arr Harr) as (z & Hz & ->). cbn [rbind].
  destruct (Qle_bool c vi) eqn:Hup.
  - (* a single value *)
    rewrite Hlow.
    apply Qle_bool_iff in Hup.
    assert (Hc0 : (c <= 0)%Q) by lra.
    assert (Hone : length a = 1%nat).
    { unfold c in Hc0. change 0%Q with (inject_Z 0) in Hc0.
      rewrite <- Zle_Qle in Hc0. lia. }
    destruct (py_index_last arr Harr) as (z' & Hz' & ->). cbn [rbind].
    assert (z' = z) as -> by congruence.
    eexists. split; [reflexivity|].
    exists arr, 0%nat, 0%Q, z, z.
    rewrite Hlen, Hone in Hz. cbn in Hz.
    split_and!; try assumption; try lra.
    + fold c. change (inject_Z (Z.of_nat 0)) with 0%Q. lra.
    + rewrite Hone. cbn. exact Hz.
    + rewrite lerp_linear. ring.
  - (* at least two values *)
    rewrite Hlow.
    assert (Hlt : (vi < c)%Q).
    { apply Qnot_le_lt. intros Hle. apply Qle_bool_iff in Hle. congruence. }
    pose proof (Qfloor_le vi) as Hfl.
    pose proof (Qlt_floor vi) as Hfu.
    rewrite inject_Z_plus in Hfu. change (inject_Z 1) with 1%Q in Hfu.
    assert (Hf0 : 0 <= Qfloor vi).
    { change 0 with (Qfloor 0). apply Qfloor_resp_le, Hvi0. }
    assert (Hf1 : Qfloor vi < Z.of_nat (length a) - 1).
    { rewrite Zlt_Qlt. fold c. lra. }
    destruct (py_index_nonneg arr (Qfloor vi)) as (x & Hx & ->); [lia|].
    destruct (py_index_nonneg arr (Qfloor vi + 1)) as (y & Hy & ->); [lia|].
    cbn [rbind]. eexists. split; [reflexivity|].
    exists arr, (Z.to_nat (Qfloor vi)), (vi - inject_Z (Qfloor vi))%Q, x, y.
    split_and!; try assumption; try lra.
    + rewrite Z2Nat.id by lia. fold c. lra.
    + replace (Z.to_nat (Qfloor vi) + 1 `min` (length a - 1))%nat
        with (Z.to_nat (Qfloor vi + 1)) by lia.
      exact Hy.
    + apply lerp_linear.
Qed.

(** The description of the threshold does not look at the order in which
    the dict lists its values. *)
Lemma linear_percentile_95_perm (values values' : list Q) (p : Q) :
  values ≡ₚ values' ->
  linear_percentile_95 values p -> linear_percentile_95 values' p.
Proof.
  intros Hperm (s & lo & g & x & y & Hs & Hrest).
  exists s, lo, g, x, y. rewrite <- (Permutation_length Hperm).
  split; [|exact Hrest]. rewrite Hs. exact Hperm.
Qed.

(** ** The report *)

Lemma str_index_in_range (s : string) (i : Z) :
  0 <= i < Z.of_nat (String.length s) ->
  exists c, String.get (Z.to_nat i) s = Some c /\ str_index s i = Ok c.
Proof.
  intros Hi. destruct (string_get_in_range s (Z.to_nat i)) as [c Hc]; [lia|].
  exists c. split; [exact Hc|]. unfold str_index.
  destruct (Z.ltb_spec i 0); [lia|]. cbn zeta.
  destruct (Z.leb_spec 0 i); [|lia].
  destruct (Z.ltb_spec i (Z.of_nat (String.length s))); [|lia].
  cbn [andb]. rewrite Hc. reflexivity.
Qed.

Lemma Qltb_lt (x y : Q) : Qltb x y = true <-> (x < y)%Q.
Proof.
  unfold Qltb. rewrite negb_true_iff. split.
  - intros H. apply Qnot_le_lt. intros Hle.
    apply Qle_bool_iff in Hle. congruence.
  - intros H. destruct (Qle_bool y x) eqn:E; [|reflexivity].
    apply Qle_bool_iff in E. exfalso. exact (Qlt_not_le _ _ H E).
Qed.

Lemma writerow_insert (path : string) (row : list cell)
    (rows : list (list cell)) (fs : gmap string artifact) :
  writerow path row (<[path := Csv rows]> fs)
  = (<[path := Csv (rows ++ [row])]> fs, Ok tt).
Proof. unfold writerow, modify. rewrite alter_insert_eq. reflexivity. Qed.

Section Report.

Variable sequence : string.
Variable accumulated_attention : gmap Z Q.
Variable threshold : Q.

Hypothesis keys_in_range : forall i,
  is_Some (accumulated_attention !! i) ->
  1 <= i <= Z.of_nat (String.length sequence).

(** One iteration on a key of the mapping appends what [reported] says. *)
Lemma report_row_reported (i : Z) (rows : list (list cell))
    (fs : gmap string artifact) :
  is_Some (accumulated_attention !! i) ->
  report_row sequence accumulated_attention threshold i
    (<[csv_file := Csv rows]> fs)
  = (<[csv_file :=
         Csv (rows ++ (record_row
                         <$> reported sequence accumulated_attention threshold i))]> fs,
     Ok tt).
Proof.
  intros Hi. pose proof (keys_in_range i Hi) as Hrange.
  destruct Hi as [v Hv].
  destruct (str_index_in_range sequence (i - 1)) as (c & Hc & Hidx); [lia|].
  unfold report_row, reported, bind, lift. rewrite Hv, Hc.
  destruct (Qltb threshold v).
  - rewrite Hidx. apply writerow_insert.
  - cbn. rewrite app_nil_r. reflexivity.
Qed.

(** The loop of lines 107-111 over keys of the mapping. *)
Lemma report_loop (keys : list Z) :
  (forall i, i ∈ keys -> is_Some (accumulated_attention !! i)) ->
  forall (rows : list (list cell)) (fs : gmap string artifact),
    for_each keys (report_row sequence accumulated_attention threshold)
      (<[csv_file := Csv rows]> fs)
    = (<[csv_file :=
           Csv (rows ++ (record_row
                           <$> (keys ≫= reported sequence accumulated_attention
                                          threshold)))]> fs,
       Ok tt).
Proof.
  induction keys as [|i keys IH]; intros Hkeys rows fs.
  - cbn. rewrite app_nil_r. reflexivity.
  - cbn [for_each]. unfold bind at 1.
    rewrite report_row_reported by (apply Hkeys, list_elem_of_here).
    rewrite IH by (intros; apply Hkeys, list_elem_of_further; assumption).
    rewrite bind_cons, fmap_app, app_assoc. reflexivity.
Qed.



End Report.

Lemma sorted_keys_elem (m : gmap Z Q) (i : Z) :
  i ∈ sorted_keys m <-> is_Some (m !! i).
Proof.
  unfold sorted_keys. rewrite merge_sort_Permutation, list_elem_of_fmap. split.
  - intros ([k v] & -> & Hin). apply elem_of_map_to_list in Hin. eauto.
  - intros [v Hv]. exists (i, v). split; [reflexivity|].
    apply elem_of_map_to_list, Hv.
Qed.



(** The report of a non-empty mapping whose keys are positions of the
    sequence: the threshold is computed, the file is opened, and the header
    and the reported records are written. *)
Lemma report_ok (sequence : string) (m : gmap Z Q)
    (fs : gmap string artifact) :
  m <> ∅ ->
  (forall i, is_Some (m !! i) -> 1 <= i <= Z.of_nat (String.length sequence)) ->
  exists P : Q,
    np_percentile (map_to_list m).*2 95 = Ok P /\
    linear_percentile_95 (map_to_list m).*2 P /\
    report sequence m fs
    = (<[csv_file :=
           Csv (csv_header
                  :: (record_row <$> (sorted_keys m ≫= reported sequence m P)))]> fs,
       Ok tt).
Proof.
  intros Hne Hrange.
  destruct (np_percentile_linear (map_to_list m).*2) as (P & HP & Hlin).
  { intros E. apply fmap_nil_inv in E. apply map_to_list_empty_iff in E.
    contradiction. }
  exists P. split_and!; [exact HP|exact Hlin|].
  unfold report. rewrite HP. unfold bind at 1, lift at 1.
  unfold bind at 1, open_w, modify.
  unfold bind at 1. rewrite writerow_insert. cbn [app].
  rewrite (report_loop sequence m P Hrange)
    by (intros i Hi; apply sorted_keys_elem, Hi).
  reflexivity.
Qed.


Lemma sample_accumulated_in_range (i : Z) :
  is_Some (sample_accumulated !! i) ->
  1 <= i <= Z.of_nat (String.length sample_sequence).
Proof.
  unfold sample_accumulated. intros [v Hv].
  apply lookup_insert_Some in Hv as [[<- _]|[_ Hv]]; [cbn; lia|].
  apply lookup_insert_Some in Hv as [[<- _]|[_ Hv]]; [cbn; lia|].
  rewrite lookup_empty in Hv. discriminate.
Qed.

Lemma sample_accumulated_nonempty : sample_accumulated <> ∅.
Proof. unfold sample_accumulated. apply insert_non_empty. Qed.


(** The hand-computed reference of the specification: for the values 1 to
    20 the threshold is 19.05, and only the value 20 exceeds it. *)
Example percentile_of_1_to_20 :
  exists p : Q,
    np_percentile (inject_Z <$> seqZ 1 20) 95 = Ok p /\ (p == 1905 # 100)%Q /\
    filter (fun v => Qltb p v = true) (inject_Z <$> seqZ 1 20) = [inject_Z 20].
Proof. eexists. split_and!; [vm_compute; reflexivity|reflexivity..]. Qed.

(** ** The empty mapping *)

(** C3, as the specification states it, fails: with an empty mapping the
    percentile of no values raises IndexError before the report file is
    opened, so that the run stops and no file is written, not even one
    with the header alone. *)
Lemma empty_mapping_not_reported :
  report sample_sequence ∅ ∅ = (∅, Raise IndexError) /\
  main sample_cdf (sample_analyzer sample_snrs sample_p_values ∅)
    sample_sequence [1] ∅ = (∅, Raise IndexError).
Proof. split; reflexivity. Qed.

(** C3, amended. If the mapping is empty, the report raises IndexError in
    the percentile computation and leaves the files as they were: the
    report file is not written. A run that reaches the report with an empty
    mapping stops there with that exception. *)
Theorem empty_mapping_raises (cdf : Z -> float -> float) (analyzer : Analyzer)
    (sequence : string) (allosteric_res : list Z) (fs : gmap string artifact)
    (hs : list head_stat) (sensitive : list (nat * nat)) :
  selection cdf analyzer sequence allosteric_res = Ok (hs, sensitive) ->
  compute_accumulated_average_attention analyzer
    (get_attention_maps analyzer sequence) sequence allosteric_res sensitive
  = ∅ ->
  report sequence ∅ fs = (fs, Raise IndexError) /\
  main cdf analyzer sequence allosteric_res fs = (fs, Raise IndexError).
Proof.
  intros Hsel Hacc.
  assert (Hrep : report sequence ∅ fs = (fs, Raise IndexError)).
  { unfold report. rewrite map_to_list_empty. reflexivity. }
  split; [exact Hrep|].
  unfold main. rewrite Hsel. unfold bind at 1, lift at 1.
  rewrite Hacc. unfold bind at 1. rewrite Hrep. reflexivity.
Qed.

Lemma empty_mapping_raises_witness :
  report sample_sequence ∅ ∅ = (∅, Raise IndexError) /\
  main sample_cdf (sample_analyzer sample_snrs sample_p_values ∅)
    sample_sequence [1] ∅ = (∅, Raise IndexError).
Proof.
  apply (empty_mapping_raises sample_cdf
           (sample_analyzer sample_snrs sample_p_values ∅)
           sample_sequence [1] ∅ sample_stats [(0%nat, 1%nat)]);
    reflexivity.
Defined.

(** ** The empty selection *)

(** C7. When no head is selected, a run whose report succeeds (the
    collaborator's mapping is not empty and its keys are positions of the
    sequence) ends without an exception: the record of the sensitive heads
    is written and describes the empty selection (no pair, no score), the
    file of the stacked attention maps is left untouched, and no mean map
    is computed. *)
Theorem empty_selection_is_handled (cdf : Z -> float -> float)
    (analyzer : Analyzer) (sequence : string) (allosteric_res : list Z)
    (fs : gmap string artifact) (hs : list head_stat) :
  selection cdf analyzer sequence allosteric_res = Ok (hs, []) ->
  let accumulated_attention :=
    compute_accumulated_average_attention analyzer
      (get_attention_maps analyzer sequence) sequence allosteric_res [] in
  accumulated_attention <> ∅ ->
  (forall i, is_Some (accumulated_attention !! i) ->
             1 <= i <= Z.of_nat (String.length sequence)) ->
  exists fs' : gmap string artifact,
    main cdf analyzer sequence allosteric_res fs
      = (fs', Ok (Locals hs [] None)) /\
    fs' !! heads_file = Some (HeadInfo [] ∅ ∅) /\
    fs' !! maps_file = fs !! maps_file /\
    exists rows, fs' !! csv_file = Some (Csv (csv_header :: rows)).
Proof.
  intros Hsel acc Hne Hrange.
  destruct (report_ok sequence acc fs Hne Hrange) as (P & _ & _ & Hrep).
  eexists. split_and!.
  - unfold main. rewrite Hsel. unfold bind at 1, lift at 1.
    fold acc. unfold bind at 1. rewrite Hrep. reflexivity.
  - apply lookup_insert_eq.
  - rewrite !lookup_insert_ne by discriminate. reflexivity.
  - eexists. rewrite lookup_insert_ne by discriminate.
    apply lookup_insert_eq.
Qed.

Lemma empty_selection_is_handled_witness :
  exists fs' : gmap string artifact,
    main sample_cdf
      (sample_analyzer sample_low_snrs sample_p_values sample_accumulated)
      sample_sequence [1] ∅
      = (fs', Ok (Locals [(0%nat, 0%nat, 1%float, 1%float);
                          (0%nat, 1%nat, 5%float, 1%float)] [] None)) /\
    fs' !! heads_file = Some (HeadInfo [] ∅ ∅) /\
    fs' !! maps_file = (∅ : gmap string artifact) !! maps_file /\
    exists rows, fs' !! csv_file = Some (Csv (csv_header :: rows)).
Proof.
  apply (empty_selection_is_handled sample_cdf
           (sample_analyzer sample_low_snrs sample_p_values sample_accumulated)
           sample_sequence [1] ∅).
  - reflexivity.
  - exact sample_accumulated_nonempty.
  - exact sample_accumulated_in_range.
Defined.

(** ** The saved artefacts *)

Lemma rmap_Forall2 {A B} (f : A -> result B) (P : A -> B -> Prop)
    (l : list A) :
  (forall x, x ∈ l -> exists y, f x = Ok y /\ P x y) ->
  exists ys, rmap f l = Ok ys /\ Forall2 P l ys.
Proof.
  induction l as [|x l IH]; intros Hf.
  - exists []. split; [reflexivity|constructor].
  - destruct (Hf x) as (y & Hy & HP); [apply list_elem_of_here|].
    destruct IH as (ys & Hys & HF).
    { intros; apply Hf, list_elem_of_further; assumption. }
    exists (y :: ys). cbn. rewrite Hy. cbn. rewrite Hys.
    split; [reflexivity|]. constructor; assumption.
Qed.

Lemma rmap_then {A B C} (f : A -> result B) (g : B -> C) (l : list A)
    (ys : list B) :
  rmap f l = Ok ys ->
  rmap (fun x => y <-? f x; Ok (g y)) l = Ok (g <$> ys).
Proof.
  revert ys. induction l as [|x l IH]; intros ys; cbn.
  - intros [= <-]. reflexivity.
  - destruct (f x) as [y|]; [|discriminate]. cbn.
    destruct (rmap f l) as [ys'|]; [|discriminate]. cbn.
    intros [= <-]. rewrite (IH ys' eq_refl). reflexivity.
Qed.


Lemma score_dict_ok (t : tensor) (L H : nat) (sensitive : list (nat * nat)) :
  tensor_wf t -> shape t = [L; H] ->
  (forall lh, lh ∈ sensitive -> (lh.1 < L)%nat /\ (lh.2 < H)%nat) ->
  forall d, exists d', score_dict t sensitive d = Ok d'.
Proof.
  intros Hwf Hsh. induction sensitive as [|lh sensitive IH]; intros Hin d.
  - eexists. reflexivity.
  - cbn [score_dict].
    destruct (Hin lh) as [Hl Hh]; [apply list_elem_of_here|].
    pose proof (select2_item t L H lh.1 lh.2 Hwf Hsh Hl Hh) as Hitem.
    destruct (select2 t lh.1 lh.2) as [x|]; [|discriminate]. cbn in *.
    rewrite Hitem. cbn.
    apply IH. intros; apply Hin, list_elem_of_further; assumption.
Qed.

(** [attention_maps[0, l, h]] of a well-formed rank-5 tensor. *)
Lemma attention_of_ok (attention_maps : tensor) (B Ln Hn S1 S2 : nat)
    (lh : nat * nat) :
  tensor_wf attention_maps -> shape attention_maps = [B; Ln; Hn; S1; S2] ->
  (0 < B)%nat -> (lh.1 < Ln)%nat -> (lh.2 < Hn)%nat ->
  exists t, attention_of attention_maps lh = Ok t /\
            shape t = [S1; S2] /\ tensor_wf t.
Proof.
  intros Hwf Hsh HB Hl Hh. unfold attention_of.
  destruct (select_wf attention_maps B [Ln; Hn; S1; S2] 0 Hwf Hsh HB)
    as (batch & -> & Hbsh & Hbwf & _). cbn [rbind].
  destruct (select_wf batch Ln [Hn; S1; S2] lh.1 Hbwf Hbsh Hl)
    as (layer & -> & Hlsh & Hlwf & _). cbn [rbind].
  destruct (select_wf layer Hn [S1; S2] lh.2 Hlwf Hlsh Hh)
    as (t & -> & Htsh & Htwf & _).
  eauto.
Qed.

Lemma sum_unsqueezed (ts : list tensor) :
  sum_list ((fun t => hd 0%nat (shape t)) <$> (unsqueeze0 <$> ts)) = length ts.
Proof. induction ts as [|t ts IH]; [reflexivity|]. cbn. f_equal. exact IH. Qed.

Lemma storage_unsqueezed (ts : list tensor) :
  storage <$> (unsqueeze0 <$> ts) = storage <$> ts.
Proof. rewrite <- list_fmap_compose. reflexivity. Qed.

Lemma cat0_check (ts : list tensor) (sh : list nat) :
  Forall (fun t => shape t = sh) ts ->
  forallb (fun t => bool_decide (tail (shape t) = sh)
                    && negb (ndim t =? 0)%nat)
          (unsqueeze0 <$> ts) = true.
Proof.
  induction 1 as [|t ts Ht _ IH]; [reflexivity|].
  cbn. rewrite bool_decide_eq_true_2 by exact Ht. exact IH.
Qed.

(** The concatenation of the selected maps, each with a new first axis. *)
Lemma cat0_unsqueezed (maps : list tensor) (sh : list nat) :
  maps <> [] -> Forall (fun t => shape t = sh) maps ->
  cat0 (unsqueeze0 <$> maps)
  = Ok (Tensor (length maps :: sh) (concat (storage <$> maps))).
Proof.
  intros Hne Hall.
  pose proof (cat0_check maps sh Hall) as Hcheck.
  pose proof (sum_unsqueezed maps) as Hsum.
  pose proof (storage_unsqueezed maps) as Hsto.
  destruct maps as [|t0 maps]; [congruence|].
  pose proof (Forall_inv Hall) as Ht0. cbn beta in Ht0.
  unfold cat0. rewrite fmap_cons in *. cbn [unsqueeze0 shape] in *.
  rewrite Ht0, Hcheck, Hsum, Hsto. reflexivity.
Qed.



(** * Further properties *)

(** ** From the grids to the selection (lines 53-79) *)





(** ** Residue names of valid positions (lines 25-28) *)

(** When every element is either mapped or raises [e], and one raises, the
    comprehension raises [e]. *)
Lemma rmap_some_raise {A B} (f : A -> result B) (l : list A) (e : exception) :
  (forall x, x ∈ l -> is_ok (f x) = true \/ f x = Raise e) ->
  (exists x, x ∈ l /\ f x = Raise e) ->
  rmap f l = Raise e.
Proof.
  induction l as [|x l IH]; intros Hall (y & Hy & Hfy).
  - inversion Hy.
  - cbn. destruct (Hall x) as [Hok|Hraise]; [apply list_elem_of_here| |].
    + destruct (f x) as [b|] eqn:Hfx; [|discriminate]. cbn.
      rewrite IH; [reflexivity| |].
      * intros; apply Hall, list_elem_of_further; assumption.
      * apply elem_of_cons in Hy as [->|Hy]; [congruence|eauto].
    + rewrite Hraise. reflexivity.
Qed.

Lemma residue_3l_in_range (sequence : string) (p : Z) :
  1 <= p <= Z.of_nat (String.length sequence) ->
  exists c, String.get (Z.to_nat (p - 1)) sequence = Some c /\
            residue_3l sequence p
            = dict_get protein_letters_1to3 (String c EmptyString).
Proof.
  intros Hp.
  destruct (str_index_in_range sequence (p - 1)) as (c & Hc & Hidx); [lia|].
  exists c. split; [exact Hc|]. unfold residue_3l. rewrite Hidx. reflexivity.
Qed.

(** X2. For requested positions that all lie within the sequence, the
    lookup of the residue names raises KeyError when the residue at one of
    them is not one of the twenty letters of the table, and otherwise
    returns one name per position, in the order of the positions, each the
    table's name of the residue at its position. *)
Theorem residue_names_of_valid_positions (sequence : string) (sites : list Z) :
  (forall p, p ∈ sites -> 1 <= p <= Z.of_nat (String.length sequence)) ->
  ((exists p c, p ∈ sites /\
      String.get (Z.to_nat (p - 1)) sequence = Some c /\
      protein_letters_1to3 !! String c EmptyString = None) ->
   allosteric_res_3l sequence sites = Raise KeyError) /\
  ((forall p c, p ∈ sites ->
      String.get (Z.to_nat (p - 1)) sequence = Some c ->
      is_Some (protein_letters_1to3 !! String c EmptyString)) ->
   exists names : list string,
     allosteric_res_3l sequence sites = Ok names /\
     length names = length sites /\
     forall (k : nat) (p : Z),
       sites !! k = Some p ->
       exists c name,
         String.get (Z.to_nat (p - 1)) sequence = Some c /\
         protein_letters_1to3 !! String c EmptyString = Some name /\
         names !! k = Some name).
Proof.
  intros Hrange. split.
  - intros (p & c & Hp & Hc & Hnone). unfold allosteric_res_3l.
    apply rmap_some_raise.
    + intros q Hq.
      destruct (residue_3l_in_range sequence q (Hrange q Hq)) as (d & _ & ->).
      unfold dict_get.
      destruct (protein_letters_1to3 !! String d EmptyString); [left|right];
        reflexivity.
    + exists p. split; [exact Hp|].
      destruct (residue_3l_in_range sequence p (Hrange p Hp)) as (d & Hd & ->).
      assert (d = c) as -> by congruence.
      unfold dict_get. rewrite Hnone. reflexivity.
  - intros Hstd. unfold allosteric_res_3l.
    destruct (rmap_Forall2 (residue_3l sequence)
                (fun p name => exists c,
                   String.get (Z.to_nat (p - 1)) sequence = Some c /\
                   protein_letters_1to3 !! String c EmptyString = Some name)
                sites) as (names & Hnames & Hrel).
    { intros p Hp.
      destruct (residue_3l_in_range sequence p (Hrange p Hp)) as (c & Hc & ->).
      destruct (Hstd p c Hp Hc) as [name Hname].
      exists name. unfold dict_get. rewrite Hname. eauto. }
    exists names. split_and!; [exact Hnames| |].
    + symmetry. apply (Forall2_length _ _ _ Hrel).
    + intros k p Hk.
      destruct (Forall2_lookup_l _ _ _ _ _ Hrel Hk) as (name & Hname & c & Hc & Ht).
      eauto.
Qed.

Lemma residue_names_of_valid_positions_witness :
  allosteric_res_3l "MXP" [1; 2] = Raise KeyError /\
  exists names : list string,
    allosteric_res_3l sequence_2YDO allosteric_res_2YDO = Ok names /\
    length names = length allosteric_res_2YDO.
Proof.
  split.
  - apply (residue_names_of_valid_positions "MXP" [1; 2]).
    + intros p Hp. apply elem_of_cons in Hp as [->|Hp]; [cbn; lia|].
      apply elem_of_cons in Hp as [->|Hp]; [cbn; lia|]. inversion Hp.
    + exists 2, "X"%char. split_and!; [|reflexivity..].
      apply list_elem_of_further, list_elem_of_here.
  - destruct (residue_names_of_valid_positions sequence_2YDO allosteric_res_2YDO)
      as [_ Hok].
    + intros p Hp. unfold allosteric_res_2YDO in Hp.
      repeat (apply elem_of_cons in Hp as [->|Hp]; [vm_compute; split; discriminate|]).
      inversion Hp.
    + destruct Hok as (names & Hn & Hl & _); [|eauto].
      intros p c Hp Hc. unfold allosteric_res_2YDO in Hp.
      repeat (apply elem_of_cons in Hp as [->|Hp];
              [vm_compute in Hc; injection Hc as <-; vm_compute; eauto|]).
      inversion Hp.
Defined.

(** ** The files a run writes *)

Lemma only_writes_ret {A} (paths : list string) (a : A) :
  only_writes paths (ret a).
Proof. intros fs path _. reflexivity. Qed.

Lemma only_writes_lift {A} (paths : list string) (r : result A) :
  only_writes paths (lift r).
Proof. intros fs path _. reflexivity. Qed.

Lemma only_writes_bind {A B} (paths : list string)
    (m : prog (gmap string artifact) A)
    (k : A -> prog (gmap string artifact) B) :
  only_writes paths m -> (forall a, only_writes paths (k a)) ->
  only_writes paths (bind m k).
Proof.
  intros Hm Hk fs path Hpath. unfold bind.
  specialize (Hm fs path Hpath). destruct (m fs) as [fs' [a|e]]; cbn in *.
  - rewrite (Hk a fs' path Hpath). exact Hm.
  - exact Hm.
Qed.

Lemma only_writes_insert (paths : list string) (path : string) (f : artifact) :
  path ∈ paths -> only_writes paths (modify (fun fs => <[path := f]> fs)).
Proof.
  intros Hin fs path' Hpath'. cbn.
  apply lookup_insert_ne. intros ->. contradiction.
Qed.

Lemma only_writes_writerow (paths : list string) (path : string)
    (row : list cell) :
  path ∈ paths -> only_writes paths (writerow path row).
Proof.
  intros Hin fs path' Hpath'. cbn.
  apply lookup_alter_ne. intros ->. contradiction.
Qed.

Lemma only_writes_for_each {A} (paths : list string) (l : list A)
    (body : A -> prog (gmap string artifact) unit) :
  (forall x, only_writes paths (body x)) -> only_writes paths (for_each l body).
Proof.
  intros Hbody. induction l as [|x l IH]; cbn [for_each].
  - apply only_writes_ret.
  - apply only_writes_bind; [apply Hbody|intros _; exact IH].
Qed.

Lemma only_writes_weaken {A} (paths paths' : list string)
    (m : prog (gmap string artifact) A) :
  paths ⊆ paths' -> only_writes paths m -> only_writes paths' m.
Proof. intros Hsub Hm fs path Hpath. apply Hm. intros Hin. apply Hpath, Hsub, Hin. Qed.

Create HintDb writes.
#[local] Hint Resolve only_writes_ret only_writes_lift only_writes_insert
  only_writes_writerow : writes.

(** The report writes the report file only. *)
Lemma report_only_writes (sequence : string) (m : gmap Z Q) :
  only_writes [csv_file] (report sequence m).
Proof.
  assert (Hcsv : csv_file ∈ [csv_file]) by apply list_elem_of_here.
  unfold report. apply only_writes_bind; [auto with writes|intros P].
  apply only_writes_bind; [apply only_writes_insert, Hcsv|intros _].
  apply only_writes_bind; [auto with writes|intros _].
  apply only_writes_for_each. intros i. unfold report_row.
  apply only_writes_bind; [auto with writes|intros v].
  destruct (Qltb P v); [|auto with writes].
  apply only_writes_bind; [auto with writes|intros c]. auto with writes.
Qed.

(** The saving stage writes the two serialized files only. *)
Lemma save_stage_only_writes (attention_maps impact snr : tensor)
    (sensitive : list (nat * nat)) :
  only_writes [heads_file; maps_file]
    (save_stage attention_maps impact snr sensitive).
Proof.
  assert (Hh : heads_file ∈ [heads_file; maps_file]) by apply list_elem_of_here.
  assert (Hm : maps_file ∈ [heads_file; maps_file])
    by apply list_elem_of_further, list_elem_of_here.
  unfold save_stage. apply only_writes_bind; [auto with writes|intros d1].
  apply only_writes_bind; [auto with writes|intros d2].
  apply only_writes_bind; [apply only_writes_insert, Hh|intros _].
  destruct sensitive; [auto with writes|].
  apply only_writes_bind; [auto with writes|intros ts].
  apply only_writes_bind; [auto with writes|intros t].
  apply only_writes_insert, Hm.
Qed.

(** X3. Whatever the inputs and whatever the outcome, a run leaves every
    file other than the report, the record of the sensitive heads and the
    stacked attention maps as it found it; and a run that fails before the
    report (residue lookup, assertions, table) writes nothing at all. *)
Theorem main_writes_three_files_only (cdf : Z -> float -> float)
    (analyzer : Analyzer) (sequence : string) (allosteric_res : list Z)
    (fs : gmap string artifact) :
  (forall path : string,
     path <> csv_file -> path <> heads_file -> path <> maps_file ->
     (main cdf analyzer sequence allosteric_res fs).1 !! path = fs !! path) /\
  (forall e : exception,
     selection cdf analyzer sequence allosteric_res = Raise e ->
     main cdf analyzer sequence allosteric_res fs = (fs, Raise e)).
Proof.
  split.
  - intros path Hc Hh Hm.
    assert (Hmain : only_writes [csv_file; heads_file; maps_file]
                      (main cdf analyzer sequence allosteric_res)).
    { unfold main. apply only_writes_bind; [auto with writes|intros [hs sens]].
      apply only_writes_bind.
      { apply (only_writes_weaken [csv_file]); [|apply report_only_writes].
        intros x Hx. apply list_elem_of_singleton in Hx as ->.
        apply list_elem_of_here. }
      intros _. apply only_writes_bind; [auto with writes|intros mean].
      apply only_writes_bind; [|auto with writes].
      apply (only_writes_weaken [heads_file; maps_file]);
        [|apply save_stage_only_writes].
      intros x Hx. apply list_elem_of_further, Hx. }
    apply Hmain. intros Hin.
    repeat (apply elem_of_cons in Hin as [->|Hin]; [contradiction|]).
    inversion Hin.
  - intros e Hsel. unfold main, bind, lift. rewrite Hsel. reflexivity.
Qed.

Lemma main_writes_three_files_only_witness :
  (main sample_cdf
     (sample_analyzer sample_snrs sample_p_values sample_accumulated)
     sample_sequence [1]
     (<["notes.txt" := Csv []]> ∅)).1 !! "notes.txt" = Some (Csv []) /\
  main sample_cdf
    (sample_analyzer sample_snrs sample_p_values sample_accumulated)
    sample_sequence [3] ∅ = (∅, Raise IndexError).
Proof.
  split.
  - destruct (main_writes_three_files_only sample_cdf
                (sample_analyzer sample_snrs sample_p_values sample_accumulated)
                sample_sequence [1] (<["notes.txt" := Csv []]> ∅)) as [H _].
    rewrite (H "notes.txt"); [reflexivity|discriminate..].
  - apply (main_writes_three_files_only sample_cdf
             (sample_analyzer sample_snrs sample_p_values sample_accumulated)
             sample_sequence [3] ∅).
    reflexivity.
Defined.

(** ** The threshold and the number of reported rows (lines 99-111) *)

#[local] Instance Qle_transitive : Transitive Qle.
Proof. intros x y z. apply Qle_trans. Qed.

(** In a sorted list a later element is not below an earlier one. *)
Lemma sorted_lookup_le (s : list Q) (i j : nat) (a b : Q) :
  StronglySorted Qle s -> (i <= j)%nat ->
  s !! i = Some a -> s !! j = Some b -> (a <= b)%Q.
Proof.
  intros Hs. revert i j. induction Hs as [|z s Hs IH Hall]; intros i j Hij Ha Hb.
  - rewrite lookup_nil in Ha. discriminate.
  - destruct i as [|i], j as [|j]; cbn in *; try lia.
    + assert (a = b) as -> by congruence. apply Qle_refl.
    + injection Ha as <-. rewrite Forall_forall in Hall.
      apply Hall. apply list_elem_of_lookup. eauto.
    + apply (IH i j); [lia|assumption..].
Qed.

(** What the description of the threshold gives: a sorted arrangement of
    the values, the order statistic below the threshold, another value
    above it, and how far up the sorted list the lower one sits. *)
Lemma linear_percentile_95_bounds (values : list Q) (p : Q) :
  linear_percentile_95 values p ->
  exists (s : list Q) (lo : nat) (x y : Q),
    s ≡ₚ values /\ StronglySorted Qle s /\
    s !! lo = Some x /\ y ∈ s /\ (x <= p)%Q /\ (p <= y)%Q /\
    19 * (Z.of_nat (length values) - 1) - 20 < 20 * Z.of_nat lo.
Proof.
  intros (s & lo & g & x & y & Hperm & Hsorted & Hg0 & Hg1 & Hidx & Hx & Hy & Hp).
  apply Sorted_StronglySorted in Hsorted; [|apply _].
  assert (Hxy : (x <= y)%Q).
  { apply (sorted_lookup_le s lo (lo + 1 `min` (length values - 1)) x y);
      try assumption.
    apply lookup_lt_Some in Hx. rewrite (Permutation_length Hperm) in Hx. lia. }
  exists s, lo, x, y. split_and!; try assumption.
  - apply list_elem_of_lookup. eauto.
  - nra.
  - nra.
  - set (c := Z.of_nat (length values) - 1) in *.
    replace (19 * c - 20) with (19 * c + -20) by lia.
    rewrite Zlt_Qlt, inject_Z_plus, !inject_Z_mult.
    change (inject_Z 19) with 19%Q. change (inject_Z 20) with 20%Q.
    change (inject_Z (-20)) with (-20)%Q. lra.
Qed.







(** ** A key beyond the sequence (lines 107-111) *)





(** ** The keys of the saved scores (lines 138-143) *)

Lemma pretty_N_go_free (x : N) (s : string) :
  str_free "_" s -> str_free "_" (pretty_N_go x s).
Proof.
  revert s. induction (N.lt_wf_0 x) as [x _ IH]; intros s Hs.
  assert (x = 0 \/ 0 < x)%N as [->|Hx] by lia.
  - rewrite pretty_N_go_0. exact Hs.
  - rewrite pretty_N_go_step by exact Hx. apply IH.
    + apply N.div_lt; [exact Hx|reflexivity].
    + split; [|exact Hs]. unfold pretty_N_char.
      repeat case_match; discriminate.
Qed.

(** The decimal numeral of a natural number has no underscore. *)
Lemma pretty_nat_free (n : nat) : str_free "_" (pretty n).
Proof.
  unfold pretty, pretty_nat, pretty, pretty_N.
  case_decide.
  - split; [discriminate|exact I].
  - apply pretty_N_go_free. exact I.
Qed.

Lemma append_separator_inj (c : ascii) (a a' b b' : string) :
  str_free c a -> str_free c a' ->
  a +:+ String c b = a' +:+ String c b' -> a = a' /\ b = b'.
Proof.
  revert a'. induction a as [|x a IH]; intros [|x' a'] Ha Ha' Heq; cbn in *.
  - injection Heq as ->. auto.
  - injection Heq as <- _. destruct Ha' as [Hx _]. congruence.
  - injection Heq as -> _. destruct Ha as [Hx _]. congruence.
  - injection Heq as -> Heq. destruct Ha as [_ Ha], Ha' as [_ Ha'].
    destruct (IH a' Ha Ha' Heq) as [-> ->]. auto.
Qed.

(** Distinct heads have distinct keys. *)
Lemma head_key_inj (lh lh' : nat * nat) : head_key lh = head_key lh' -> lh = lh'.
Proof.
  destruct lh as [l h], lh' as [l' h']. unfold head_key. cbn [fst snd].
  intros Heq.
  apply append_separator_inj in Heq as [Hl Hh]; try apply pretty_nat_free.
  apply (inj pretty) in Hl. apply (inj pretty) in Hh. congruence.
Qed.

(** The dict comprehension over heads inside the grid: every head of the
    list is keyed to the grid's entry at it, and the other keys are left
    as they were. *)
Lemma score_dict_lookup (t : tensor) (L H : nat) (sensitive : list (nat * nat)) :
  tensor_wf t -> shape t = [L; H] ->
  (forall lh, lh ∈ sensitive -> (lh.1 < L)%nat /\ (lh.2 < H)%nat) ->
  forall d0 : gmap string float,
  exists d : gmap string float,
    score_dict t sensitive d0 = Ok d /\
    (forall lh, lh ∈ sensitive ->
       d !! head_key lh = Some (grid_at t lh.1 lh.2)) /\
    (forall key, (forall lh, lh ∈ sensitive -> head_key lh <> key) ->
       d !! key = d0 !! key).
Proof.
  intros Hwf Hsh. induction sensitive as [|lh rest IH]; intros Hin d0.
  - exists d0. split_and!; [reflexivity| |reflexivity].
    intros lh Hlh. inversion Hlh.
  - destruct (Hin lh (list_elem_of_here _ _)) as [Hl Hh].
    pose proof (select2_item t L H lh.1 lh.2 Hwf Hsh Hl Hh) as Hitem.
    destruct (IH (fun x Hx => Hin x (list_elem_of_further _ _ _ Hx))
                 (<[head_key lh := grid_at t lh.1 lh.2]> d0))
      as (d & Hd & Hkeys & Hother).
    exists d. split_and!.
    + cbn [score_dict].
      destruct (select2 t lh.1 lh.2) as [x|]; [|discriminate]. cbn in *.
      rewrite Hitem. cbn. exact Hd.
    + intros lh' Hlh'. apply elem_of_cons in Hlh' as [->|Hlh'].
      * destruct (decide (lh ∈ rest)) as [Hr|Hr]; [apply Hkeys, Hr|].
        rewrite Hother; [apply lookup_insert_eq|].
        intros lh' Hlh' Heq. apply head_key_inj in Heq as ->. contradiction.
      * apply Hkeys, Hlh'.
    + intros key Hkey. rewrite Hother.
      * apply lookup_insert_ne. apply Hkey, list_elem_of_here.
      * intros lh' Hlh'. apply Hkey, list_elem_of_further, Hlh'.
Qed.

(** X7. For sensitive heads that lie within the well-formed impact and SNR
    grids, the record of the sensitive heads is written whatever becomes of
    the attention maps after it; it holds the list of heads as it is, and
    its two dicts map the key [f"{l}_{h}"] of every listed head, and no
    other key, to the impact and the SNR of that head; two different heads
    never share a key. *)
Theorem saved_scores_are_keyed_by_head
    (attention_maps impact snr : tensor) (sensitive : list (nat * nat))
    (fs : gmap string artifact) (L H L' H' : nat) :
  tensor_wf impact -> shape impact = [L; H] ->
  tensor_wf snr -> shape snr = [L'; H'] ->
  (forall lh, lh ∈ sensitive ->
     (lh.1 < L /\ lh.2 < H) /\ (lh.1 < L' /\ lh.2 < H'))%nat ->
  (forall lh lh' : nat * nat, head_key lh = head_key lh' -> lh = lh') /\
  exists impact_scores snr_values : gmap string float,
    (save_stage attention_maps impact snr sensitive fs).1 !! heads_file
      = Some (HeadInfo sensitive impact_scores snr_values) /\
    (forall lh, lh ∈ sensitive ->
       impact_scores !! head_key lh = Some (grid_at impact lh.1 lh.2) /\
       snr_values !! head_key lh = Some (grid_at snr lh.1 lh.2)) /\
    (forall key,
       is_Some (impact_scores !! key) \/ is_Some (snr_values !! key) ->
       exists lh, lh ∈ sensitive /\ key = head_key lh).
Proof.
  intros Hiwf Hish Hswf Hssh Hin. split; [exact head_key_inj|].
  destruct (score_dict_lookup impact L H sensitive Hiwf Hish
              (fun lh Hlh => proj1 (Hin lh Hlh)) ∅) as (d1 & Hd1 & Hk1 & Ho1).
  destruct (score_dict_lookup snr L' H' sensitive Hswf Hssh
              (fun lh Hlh => proj2 (Hin lh Hlh)) ∅) as (d2 & Hd2 & Hk2 & Ho2).
  exists d1, d2. split_and!.
  - unfold save_stage. rewrite Hd1. unfold bind at 1, lift at 1.
    rewrite Hd2. unfold bind at 1, lift at 1.
    unfold bind at 1, torch_save at 1, modify at 1.
    destruct sensitive as [|lh0 rest]; [apply lookup_insert_eq|].
    unfold bind at 1, lift at 1.
    destruct (rmap _ (lh0 :: rest)) as [ts|e]; [|apply lookup_insert_eq].
    unfold bind at 1, lift at 1.
    destruct (cat0 ts) as [t|e]; [|apply lookup_insert_eq].
    cbn. rewrite lookup_insert_ne by discriminate. apply lookup_insert_eq.
  - intros lh Hlh. split; [apply Hk1, Hlh|apply Hk2, Hlh].
  - assert (Hdom : forall (d : gmap string float) key,
               (forall k, (forall lh, lh ∈ sensitive -> head_key lh <> k) ->
                          d !! k = (∅ : gmap string float) !! k) ->
               is_Some (d !! key) ->
               exists lh, lh ∈ sensitive /\ key = head_key lh).
    { intros d key Ho [v Hv].
      destruct (decide (Exists (fun lh => head_key lh = key) sensitive))
        as [Hex|Hnex].
      - apply Exists_exists in Hex as (lh & Hlh & <-). eauto.
      - rewrite Ho in Hv; [rewrite lookup_empty in Hv; discriminate|].
        intros lh Hlh Heq. apply Hnex, Exists_exists. eauto. }
    intros key [Hs|Hs]; [apply (Hdom d1)|apply (Hdom d2)]; assumption.
Qed.

Lemma saved_scores_are_keyed_by_head_witness :
  exists impact_scores snr_values : gmap string float,
    (save_stage sample_attention sample_impacts sample_snrs
       [(0%nat, 1%nat)] ∅).1 !! heads_file
      = Some (HeadInfo [(0%nat, 1%nat)] impact_scores snr_values) /\
    (forall lh, lh ∈ [(0%nat, 1%nat)] ->
       impact_scores !! head_key lh = Some (grid_at sample_impacts lh.1 lh.2) /\
       snr_values !! head_key lh = Some (grid_at sample_snrs lh.1 lh.2)) /\
    (forall key,
       is_Some (impact_scores !! key) \/ is_Some (snr_values !! key) ->
       exists lh, lh ∈ [(0%nat, 1%nat)] /\ key = head_key lh).
Proof.
  apply (saved_scores_are_keyed_by_head sample_attention sample_impacts
           sample_snrs [(0%nat, 1%nat)] ∅ 1 2 1 2); try reflexivity.
  intros lh Hlh. apply list_elem_of_singleton in Hlh as ->. cbn. lia.
Defined.

(** ** The mean map (lines 117-124) *)

Lemma select2_ok (t : tensor) (L H l h : nat) :
  tensor_wf t -> shape t = [L; H] -> (l < L)%nat -> (h < H)%nat ->
  exists x, select2 t l h = Ok x.
Proof.
  intros Hwf Hsh Hl Hh. unfold select2.
  destruct (select_wf t L [H] l Hwf Hsh Hl) as (row & -> & Hrsh & Hrwf & _).
  cbn [rbind].
  destruct (select_wf row H [] h Hrwf Hrsh Hh) as (c & -> & _). eauto.
Qed.

Lemma select2_raise (t : tensor) (L H l h : nat) :
  tensor_wf t -> shape t = [L; H] -> (L <= l \/ H <= h)%nat ->
  select2 t l h = Raise IndexError.
Proof.
  intros Hwf Hsh Hout. unfold select2.
  destruct (Nat.lt_ge_cases l L) as [Hl|Hl].
  - destruct (select_wf t L [H] l Hwf Hsh Hl) as (row & -> & Hrsh & _).
    cbn [rbind]. apply (select_out_of_range row H [] h Hrsh). lia.
  - rewrite (select_out_of_range t L [H] l Hsh Hl). reflexivity.
Qed.

Lemma rmap_select2_ok (t : tensor) (L H : nat) (sensitive : list (nat * nat)) :
  tensor_wf t -> shape t = [L; H] ->
  (forall lh, lh ∈ sensitive -> (lh.1 < L)%nat /\ (lh.2 < H)%nat) ->
  exists xs, rmap (fun lh => select2 t lh.1 lh.2) sensitive = Ok xs.
Proof.
  intros Hwf Hsh Hin.
  destruct (rmap_Forall2 (fun lh => select2 t lh.1 lh.2) (fun _ _ => True)
              sensitive) as (xs & Hxs & _); [|eauto].
  intros lh Hlh. destruct (Hin lh Hlh) as [Hl Hh].
  destruct (select2_ok t L H lh.1 lh.2 Hwf Hsh Hl Hh) as [x Hx]. eauto.
Qed.

Lemma stack_same_shape (maps : list tensor) (sh : list nat) :
  maps <> [] -> Forall (fun t => shape t = sh) maps ->
  stack maps = Ok (Tensor (length maps :: sh) (concat (storage <$> maps))).
Proof.
  intros Hne Hall. destruct maps as [|t0 maps]; [congruence|].
  pose proof (Forall_inv Hall) as Ht0. cbn beta in Ht0.
  unfold stack. rewrite Ht0.
  assert (Hcheck : forallb (fun t => bool_decide (shape t = sh)) (t0 :: maps) = true).
  { clear Hne Ht0. induction Hall as [|t ts Ht _ IH]; [reflexivity|].
    cbn. rewrite bool_decide_eq_true_2 by exact Ht. exact IH. }
  rewrite Hcheck. reflexivity.
Qed.


(** The selected maps of a well-formed attention tensor. *)
Lemma selected_maps (attention_maps : tensor) (B Ln Hn S1 S2 : nat)
    (sensitive : list (nat * nat)) :
  tensor_wf attention_maps -> shape attention_maps = [B; Ln; Hn; S1; S2] ->
  (0 < B)%nat ->
  (forall lh, lh ∈ sensitive -> (lh.1 < Ln)%nat /\ (lh.2 < Hn)%nat) ->
  exists maps : list tensor,
    rmap (attention_of attention_maps) sensitive = Ok maps /\
    Forall2 (fun lh t => attention_of attention_maps lh = Ok t) sensitive maps /\
    Forall (fun t => shape t = [S1; S2]) maps /\
    Forall (fun c => length c = (S1 * (S2 * 1))%nat) (storage <$> maps).
Proof.
  intros Hwf Hsh HB Hin.
  destruct (rmap_Forall2 (attention_of attention_maps)
              (fun lh t => attention_of attention_maps lh = Ok t /\
                           shape t = [S1; S2] /\ tensor_wf t) sensitive)
    as (maps & Hmaps & Hrel).
  { intros lh Hlh. destruct (Hin lh Hlh) as [Hl Hh].
    destruct (attention_of_ok attention_maps B Ln Hn S1 S2 lh Hwf Hsh HB Hl Hh)
      as (t & Ht & Htsh & Htwf).
    exists t. auto. }
  exists maps. split_and!; [exact Hmaps| | |].
  - eapply Forall2_impl; [exact Hrel|]. intros lh t (Ht & _). exact Ht.
  - apply Forall_forall. intros t Ht.
    apply list_elem_of_lookup in Ht as [k Hk].
    destruct (Forall2_lookup_r _ _ _ _ _ Hrel Hk) as (lh & _ & _ & Hs & _).
    exact Hs.
  - apply Forall_forall. intros c Hc.
    apply list_elem_of_fmap in Hc as (t & -> & Ht).
    apply list_elem_of_lookup in Ht as [k Hk].
    destruct (Forall2_lookup_r _ _ _ _ _ Hrel Hk) as (lh & _ & _ & Hs & Hw).
    unfold tensor_wf in Hw. rewrite Hs in Hw. exact Hw.
Qed.


Lemma sample_heads_in_range (lh : nat * nat) :
  lh ∈ [(0%nat, 1%nat); (0%nat, 0%nat)] ->
  (((lh.1 < 1 /\ lh.2 < 2) /\ (lh.1 < 1 /\ lh.2 < 2)) /\
   ((lh.1 < 1 /\ lh.2 < 2) /\ (lh.1 < 1 /\ lh.2 < 2)))%nat.
Proof.
  intros Hlh.
  apply elem_of_cons in Hlh as [->|Hlh]; [cbn; lia|].
  apply list_elem_of_singleton in Hlh as ->. cbn. lia.
Qed.


(** ** The run as a whole *)

(** The selection stage on grids that the collaborator keeps well-formed:
    the table is the row-major one and the selected heads are cells of the
    grids. *)
Lemma selection_in_grid (cdf : Z -> float -> float) (analyzer : Analyzer)
    (sequence : string) (allosteric_res : list Z) (names : list string)
    (L H : nat) :
  allosteric_res_3l sequence allosteric_res = Ok names ->
  grids_ok (analyze_protein analyzer sequence allosteric_res) L H ->
  exists (hs : list head_stat) (sensitive : list (nat * nat)),
    selection cdf analyzer sequence allosteric_res = Ok (hs, sensitive) /\
    length hs = (L * H)%nat /\
    sensitive `sublist_of` row_major L H /\
    forall lh, lh ∈ sensitive -> (lh.1 < L)%nat /\ (lh.2 < H)%nat.
Proof.
  intros Hnames [[Hiw His] [Hsw Hss]].
  set (r := analyze_protein analyzer sequence allosteric_res) in *.
  set (hs := stat_of (impacts r) (snrs r) <$> row_major L H).
  assert (Hsub : sensitive_heads (t_stats cdf hs) `sublist_of` row_major L H).
  { rewrite sensitive_heads_filter.
    rewrite <- (stat_key_stat_of (impacts r) (snrs r) (row_major L H)).
    fold hs. rewrite <- (t_stats_keys cdf). apply fmap_sublist, sublist_filter. }
  exists hs, (sensitive_heads (t_stats cdf hs)). split_and!.
  - unfold selection. rewrite Hnames. cbn [rbind]. fold r.
    unfold head_stats.
    rewrite (head_stats_run_covering (impacts r) (snrs r) L H L H)
      by (auto; lia).
    reflexivity.
  - unfold hs. rewrite length_fmap. apply row_major_length.
  - exact Hsub.
  - intros [l h] Hlh. apply row_major_elem.
    eapply elem_of_sublist; eauto.
Qed.

(** The stage of the mean map, as far as the run needs it: it succeeds when
    the heads lie inside all the tensors, and raises IndexError when the
    p-values tensor, alone, lacks one of them. *)
Lemma mean_map_stage_outcome
    (attention_maps impact snr p_val : tensor) (sensitive : list (nat * nat))
    (B Ln Hn S1 S2 L H L' H' Lp Hp : nat) :
  sensitive <> [] ->
  tensor_wf attention_maps ->
  shape attention_maps = [B; Ln; Hn; S1; S2] -> (0 < B)%nat ->
  tensor_wf impact -> shape impact = [L; H] ->
  tensor_wf snr -> shape snr = [L'; H'] ->
  tensor_wf p_val -> shape p_val = [Lp; Hp] ->
  (forall lh, lh ∈ sensitive ->
     ((lh.1 < L /\ lh.2 < H) /\ (lh.1 < L' /\ lh.2 < H')) /\
     (lh.1 < Ln /\ lh.2 < Hn))%nat ->
  ((forall lh, lh ∈ sensitive -> (lh.1 < Lp /\ lh.2 < Hp)%nat) ->
   exists mean, mean_map_stage attention_maps impact snr p_val sensitive
                = Ok (Some mean)) /\
  ((exists lh, lh ∈ sensitive /\ (Lp <= lh.1 \/ Hp <= lh.2)%nat) ->
   mean_map_stage attention_maps impact snr p_val sensitive = Raise IndexError).
Proof.
  intros Hne Hawf Hash HB Hiwf Hish Hswf Hssh Hpwf Hpsh Hin.
  destruct (selected_maps attention_maps B Ln Hn S1 S2 sensitive Hawf Hash HB)
    as (maps & Hmaps & Hrel & Hshapes & _).
  { intros lh Hlh. apply (Hin lh Hlh). }
  destruct (rmap_select2_ok impact L H sensitive Hiwf Hish) as [xs1 Hx1].
  { intros lh Hlh. apply (Hin lh Hlh). }
  destruct (rmap_select2_ok snr L' H' sensitive Hswf Hssh) as [xs2 Hx2].
  { intros lh Hlh. apply (Hin lh Hlh). }
  assert (Hmne : maps <> []).
  { intros ->. apply Forall2_length in Hrel.
    destruct sensitive; [congruence|discriminate]. }
  assert (Hstage : mean_map_stage attention_maps impact snr p_val sensitive
                   = (_ <-? rmap (fun lh => select2 p_val lh.1 lh.2) sensitive;
                      Ok (Some (Tensor [S1; S2]
                        ((fun j => np_mean
                            ((fun k => nth (k * numel [S1; S2] + j)
                                         (concat (storage <$> maps)) 0%float)
                               <$> seq 0 (length maps)))
                           <$> seq 0 (numel [S1; S2])))))).
  { unfold mean_map_stage. destruct sensitive as [|lh0 rest]; [congruence|].
    rewrite Hmaps. cbn [rbind].
    rewrite (stack_same_shape maps [S1; S2] Hmne Hshapes). cbn [rbind].
    unfold mean_dim0. cbn [shape storage rbind].
    rewrite Hx1, Hx2. cbn [rbind]. reflexivity. }
  rewrite Hstage. split.
  - intros Hpin.
    destruct (rmap_select2_ok p_val Lp Hp sensitive Hpwf Hpsh Hpin) as [xs3 ->].
    eexists. reflexivity.
  - intros (lh & Hlh & Hout).
    rewrite (rmap_some_raise (fun lh => select2 p_val lh.1 lh.2) sensitive
               IndexError); [reflexivity| |].
    + intros x _.
      destruct (Nat.lt_ge_cases x.1 Lp) as [Hl|Hl];
        [|right; apply (select2_raise p_val Lp Hp); auto].
      destruct (Nat.lt_ge_cases x.2 Hp) as [Hh|Hh];
        [|right; apply (select2_raise p_val Lp Hp); auto].
      left. destruct (select2_ok p_val Lp Hp x.1 x.2 Hpwf Hpsh Hl Hh) as [y ->].
      reflexivity.
    + exists lh. split; [exact Hlh|].
      apply (select2_raise p_val Lp Hp); assumption.
Qed.

(** The saving stage on heads inside the tensors. *)
Lemma save_stage_written
    (attention_maps impact snr : tensor) (sensitive : list (nat * nat))
    (fs : gmap string artifact) (B Ln Hn S1 S2 L H L' H' : nat) :
  tensor_wf attention_maps ->
  shape attention_maps = [B; Ln; Hn; S1; S2] -> (0 < B)%nat ->
  tensor_wf impact -> shape impact = [L; H] ->
  tensor_wf snr -> shape snr = [L'; H'] ->
  (forall lh, lh ∈ sensitive ->
     ((lh.1 < L /\ lh.2 < H) /\ (lh.1 < L' /\ lh.2 < H')) /\
     (lh.1 < Ln /\ lh.2 < Hn))%nat ->
  exists (fs' : gmap string artifact) (d1 d2 : gmap string float),
    save_stage attention_maps impact snr sensitive fs = (fs', Ok tt) /\
    fs' !! heads_file = Some (HeadInfo sensitive d1 d2) /\
    (sensitive = [] -> fs' !! maps_file = fs !! maps_file) /\
    (sensitive <> [] ->
     exists t, fs' !! maps_file = Some (TensorFile t) /\
               shape t = [length sensitive; S1; S2]).
Proof.
  intros Hawf Hash HB Hiwf Hish Hswf Hssh Hin.
  destruct (score_dict_ok impact L H sensitive Hiwf Hish) with (d := ∅ : gmap string float)
    as [d1 Hd1]; [intros lh Hlh; apply (Hin lh Hlh)|].
  destruct (score_dict_ok snr L' H' sensitive Hswf Hssh) with (d := ∅ : gmap string float)
    as [d2 Hd2]; [intros lh Hlh; apply (Hin lh Hlh)|].
  destruct (selected_maps attention_maps B Ln Hn S1 S2 sensitive Hawf Hash HB)
    as (maps & Hmaps & Hrel & Hshapes & _).
  { intros lh Hlh. apply (Hin lh Hlh). }
  assert (Hlen : length maps = length sensitive)
    by (symmetry; apply (Forall2_length _ _ _ Hrel)).
  assert (Hstart : save_stage attention_maps impact snr sensitive fs
    = match sensitive with
      | [] => (<[heads_file := HeadInfo sensitive d1 d2]> fs, Ok tt)
      | _ :: _ =>
          (<[maps_file :=
               TensorFile (Tensor (length maps :: [S1; S2])
                             (concat (storage <$> maps)))]>
             (<[heads_file := HeadInfo sensitive d1 d2]> fs), Ok tt)
      end).
  { unfold save_stage. rewrite Hd1. unfold bind at 1, lift at 1.
    rewrite Hd2. unfold bind at 1, lift at 1.
    unfold bind at 1, torch_save at 1, modify at 1.
    destruct sensitive as [|lh0 rest]; [reflexivity|].
    rewrite (rmap_then _ unsqueeze0 _ _ Hmaps).
    unfold bind at 1, lift at 1.
    rewrite (cat0_unsqueezed maps [S1; S2]); [reflexivity| |exact Hshapes].
    intros ->. discriminate. }
  rewrite Hstart. destruct sensitive as [|lh0 rest].
  - eexists _, d1, d2. split_and!; [reflexivity|apply lookup_insert_eq| |congruence].
    intros _. apply lookup_insert_ne. discriminate.
  - eexists _, d1, d2. split_and!; [reflexivity| |discriminate|].
    + rewrite lookup_insert_ne by discriminate. apply lookup_insert_eq.
    + intros _. eexists. split; [apply lookup_insert_eq|].
      cbn [shape]. rewrite Hlen. reflexivity.
Qed.

(** X9. When the requested positions are looked up without an exception,
    the collaborator returns well-formed impact, SNR and p-values grids of
    one shape [(L, H)] and a well-formed attention tensor of shape
    [(1, L, H, S, S)], and its accumulated attention is not empty and keyed
    by positions of the sequence, the run ends without an exception: the
    table has [L * H] records, the selected heads are cells of the grid in
    row-major order, the report and the record of the sensitive heads are
    written, and the stacked maps and the mean map exist exactly when a
    head was selected, the stack with one [S] by [S] slice per head. *)
Theorem main_succeeds (cdf : Z -> float -> float) (analyzer : Analyzer)
    (sequence : string) (allosteric_res : list Z)
    (fs : gmap string artifact) (names : list string) (L H S : nat) :
  allosteric_res_3l sequence allosteric_res = Ok names ->
  grids_ok (analyze_protein analyzer sequence allosteric_res) L H ->
  tensor_wf (p_values (analyze_protein analyzer sequence allosteric_res)) /\
    shape (p_values (analyze_protein analyzer sequence allosteric_res))
    = [L; H] ->
  attention_ok (get_attention_maps analyzer sequence) L H S ->
  (forall sensitive,
     mapping_ok sequence
       (compute_accumulated_average_attention analyzer
          (get_attention_maps analyzer sequence) sequence allosteric_res
          sensitive)) ->
  exists (fs' : gmap string artifact) (hs : list head_stat)
         (sensitive : list (nat * nat)) (mean : option tensor),
    main cdf analyzer sequence allosteric_res fs
      = (fs', Ok (Locals hs sensitive mean)) /\
    length hs = (L * H)%nat /\
    sensitive `sublist_of` row_major L H /\
    (exists rows, fs' !! csv_file = Some (Csv (csv_header :: rows))) /\
    (exists d1 d2, fs' !! heads_file = Some (HeadInfo sensitive d1 d2)) /\
    (sensitive = [] -> mean = None /\ fs' !! maps_file = fs !! maps_file) /\
    (sensitive <> [] ->
     is_Some mean /\
     exists t, fs' !! maps_file = Some (TensorFile t) /\
               shape t = [length sensitive; S; S]).
Proof.
  intros Hnames Hgrids [Hpwf Hpsh] [Hawf Hash] Hmap.
  destruct (selection_in_grid cdf analyzer sequence allosteric_res names L H
              Hnames Hgrids) as (hs & sens & Hsel & Hlen & Hsub & Hin).
  destruct Hgrids as [[Hiwf Hish] [Hswf Hssh]].
  set (r := analyze_protein analyzer sequence allosteric_res) in *.
  set (att := get_attention_maps analyzer sequence) in *.
  destruct (Hmap sens) as [Hne Hrange].
  destruct (report_ok sequence _ fs Hne Hrange) as (P & _ & _ & Hrep).
  match type of Hrep with _ = (?f, _) => set (fs1 := f) in Hrep end.
  assert (Hall : forall lh, lh ∈ sens ->
            (((lh.1 < L /\ lh.2 < H) /\ (lh.1 < L /\ lh.2 < H)) /\
             (lh.1 < L /\ lh.2 < H))%nat).
  { intros lh Hlh. specialize (Hin lh Hlh). tauto. }
  assert (Hmean : exists mean,
            mean_map_stage att (impacts r) (snrs r) (p_values r) sens = Ok mean /\
            (sens = [] -> mean = None) /\ (sens <> [] -> is_Some mean)).
  { destruct sens as [|lh0 rest] eqn:Esens.
    - exists None. split_and!; [reflexivity|reflexivity|congruence].
    - destruct (mean_map_stage_outcome att (impacts r) (snrs r) (p_values r)
                  (lh0 :: rest) 1 L H S S L H L H L H) as [Hok _];
        try assumption; try lia; try discriminate.
      destruct Hok as [mean Hmean]; [intros lh Hlh; apply (Hin lh Hlh)|].
      exists (Some mean). split_and!; [exact Hmean|discriminate|eauto]. }
  destruct Hmean as (mean & Hmean & Hnone & Hsome).
  destruct (save_stage_written att (impacts r) (snrs r) sens fs1
              1 L H S S L H L H) as (fs' & d1 & d2 & Hsave & Hheads & Hm0 & Hm1);
    try assumption; try lia.
  exists fs', hs, sens, mean. split_and!.
  - unfold main. rewrite Hsel. unfold bind at 1, lift at 1.
    fold r att. unfold bind at 1. rewrite Hrep.
    unfold bind at 1, lift at 1. rewrite Hmean.
    unfold bind at 1. rewrite Hsave. reflexivity.
  - exact Hlen.
  - exact Hsub.
  - eexists.
    pose proof (save_stage_only_writes att (impacts r) (snrs r) sens fs1 csv_file)
      as Hcsv.
    rewrite Hsave in Hcsv. cbn [fst] in Hcsv. rewrite Hcsv.
    + apply lookup_insert_eq.
    + intros Hx. repeat (apply elem_of_cons in Hx as [Hx|Hx]; [discriminate|]).
      inversion Hx.
  - eauto.
  - intros Hs. split; [auto|]. rewrite (Hm0 Hs).
    apply lookup_insert_ne. discriminate.
  - intros Hs. split; [auto|]. exact (Hm1 Hs).
Qed.

Lemma sample_mapping_ok : mapping_ok sample_sequence sample_accumulated.
Proof. split; [exact sample_accumulated_nonempty|exact sample_accumulated_in_range]. Qed.

Lemma main_succeeds_witness :
  exists (fs' : gmap string artifact) (hs : list head_stat)
         (sensitive : list (nat * nat)) (mean : option tensor),
    main sample_cdf
      (sample_analyzer sample_snrs sample_p_values sample_accumulated)
      sample_sequence [1] ∅
      = (fs', Ok (Locals hs sensitive mean)) /\
    length hs = (1 * 2)%nat /\
    sensitive `sublist_of` row_major 1 2 /\
    (exists rows, fs' !! csv_file = Some (Csv (csv_header :: rows))) /\
    (exists d1 d2, fs' !! heads_file = Some (HeadInfo sensitive d1 d2)) /\
    (sensitive = [] ->
     mean = None /\ fs' !! maps_file = (∅ : gmap string artifact) !! maps_file) /\
    (sensitive <> [] ->
     is_Some mean /\
     exists t, fs' !! maps_file = Some (TensorFile t) /\
               shape t = [length sensitive; 2%nat; 2%nat]).
Proof.
  apply (main_succeeds sample_cdf
           (sample_analyzer sample_snrs sample_p_values sample_accumulated)
           sample_sequence [1] ∅ ["Met"%string] 1 2 2).
  - reflexivity.
  - repeat split.
  - split; reflexivity.
  - split; reflexivity.
  - intros sensitive. exact sample_mapping_ok.
Defined.

(** X10. The p-values tensor of the collaborator, which the selection does
    not use, can still end the run: when it is a well-formed grid that
    lacks the cell of a selected head, the run raises IndexError at line
    124, after the report has been written and before anything is saved;
    the file system differs from the initial one by the report alone. *)
Theorem short_p_values_end_the_run (cdf : Z -> float -> float)
    (analyzer : Analyzer) (sequence : string) (allosteric_res : list Z)
    (fs : gmap string artifact) (hs : list head_stat)
    (sensitive : list (nat * nat)) (lh : nat * nat) (L H S Lp Hp : nat) :
  selection cdf analyzer sequence allosteric_res = Ok (hs, sensitive) ->
  grids_ok (analyze_protein analyzer sequence allosteric_res) L H ->
  attention_ok (get_attention_maps analyzer sequence) L H S ->
  mapping_ok sequence
    (compute_accumulated_average_attention analyzer
       (get_attention_maps analyzer sequence) sequence allosteric_res
       sensitive) ->
  tensor_wf (p_values (analyze_protein analyzer sequence allosteric_res)) ->
  shape (p_values (analyze_protein analyzer sequence allosteric_res))
    = [Lp; Hp] ->
  lh ∈ sensitive -> (Lp <= lh.1 \/ Hp <= lh.2)%nat ->
  exists rows : list (list cell),
    main cdf analyzer sequence allosteric_res fs
    = (<[csv_file := Csv (csv_header :: rows)]> fs, Raise IndexError).
Proof.
  intros Hsel Hgrids [Hawf Hash] [Hne Hrange] Hpwf Hpsh Hlh Hout.
  assert (Hin : forall x, x ∈ sensitive -> (x.1 < L)%nat /\ (x.2 < H)%nat).
  { pose proof Hsel as Hsel'. unfold selection in Hsel'.
    destruct (allosteric_res_3l sequence allosteric_res) as [names|] eqn:Hnames;
      [|discriminate].
    destruct (selection_in_grid cdf analyzer sequence allosteric_res names L H
                Hnames Hgrids) as (hs' & sens' & Hsel'' & _ & _ & Hin).
    rewrite Hsel in Hsel''. injection Hsel'' as _ <-. exact Hin. }
  destruct Hgrids as [[Hiwf Hish] [Hswf Hssh]].
  set (r := analyze_protein analyzer sequence allosteric_res) in *.
  set (att := get_attention_maps analyzer sequence) in *.
  destruct (report_ok sequence _ fs Hne Hrange) as (P & _ & _ & Hrep).
  assert (Hsne : sensitive <> []) by (intros ->; inversion Hlh).
  destruct (mean_map_stage_outcome att (impacts r) (snrs r) (p_values r)
              sensitive 1 L H S S L H L H Lp Hp) as [_ Hraise];
    try assumption; try lia.
  { intros x Hx. specialize (Hin x Hx). tauto. }
  eexists. unfold main. rewrite Hsel. unfold bind at 1, lift at 1.
  fold r att. unfold bind at 1. rewrite Hrep.
  unfold bind at 1, lift at 1. rewrite Hraise by eauto. reflexivity.
Qed.

Lemma short_p_values_end_the_run_witness :
  exists rows : list (list cell),
    main sample_cdf
      (sample_analyzer sample_snrs sample_short_p_values sample_accumulated)
      sample_sequence [1] ∅
    = (<[csv_file := Csv (csv_header :: rows)]> ∅, Raise IndexError).
Proof.
  apply (short_p_values_end_the_run sample_cdf
           (sample_analyzer sample_snrs sample_short_p_values sample_accumulated)
           sample_sequence [1] ∅ sample_stats [(0%nat, 1%nat)] (0%nat, 1%nat)
           1 2 2 1 1).
  - reflexivity.
  - repeat split.
  - split; reflexivity.
  - exact sample_mapping_ok.
  - reflexivity.
  - reflexivity.
  - apply list_elem_of_here.
  - right. cbn. lia.
Defined.

(** ** NaN scores (lines 66-79) *)

Lemma is_nan_spec (x : float) :
  PrimFloat.is_nan x = true <-> Prim2SF x = S754_nan.
Proof.
  unfold PrimFloat.is_nan. rewrite FloatAxioms.eqb_spec. unfold SFeqb.
  destruct (Prim2SF x) as [s|s| |s m e]; cbn.
  - split; discriminate.
  - destruct s; split; discriminate.
  - split; reflexivity.
  - rewrite Z.compare_refl, Pos.compare_cont_refl.
    destruct s; split; discriminate.
Qed.

Lemma SFcompare_nan_r (x : spec_float) : SFcompare x S754_nan = None.
Proof. destruct x as [s|s| |s m e]; reflexivity. Qed.

Lemma add_nan_l (x y : float) :
  PrimFloat.is_nan x = true -> PrimFloat.is_nan (x + y) = true.
Proof.
  rewrite !is_nan_spec, FloatAxioms.add_spec. intros ->. reflexivity.
Qed.

Lemma add_nan_r (x y : float) :
  PrimFloat.is_nan y = true -> PrimFloat.is_nan (x + y) = true.
Proof.
  rewrite !is_nan_spec, FloatAxioms.add_spec. intros ->.
  destruct (Prim2SF x) as [s|s| |s m e]; reflexivity.
Qed.

Lemma sub_nan_l (x y : float) :
  PrimFloat.is_nan x = true -> PrimFloat.is_nan (x - y) = true.
Proof.
  rewrite !is_nan_spec, FloatAxioms.sub_spec. intros ->. reflexivity.
Qed.

Lemma div_nan_l (x y : float) :
  PrimFloat.is_nan x = true -> PrimFloat.is_nan (x / y) = true.
Proof.
  rewrite !is_nan_spec, FloatAxioms.div_spec. intros ->. reflexivity.
Qed.

Lemma ltb_nan_l (x y : float) :
  PrimFloat.is_nan x = true -> (x <? y)%float = false.
Proof.
  rewrite is_nan_spec, FloatAxioms.ltb_spec. intros ->. reflexivity.
Qed.

Lemma ltb_nan_r (x y : float) :
  PrimFloat.is_nan y = true -> (x <? y)%float = false.
Proof.
  rewrite is_nan_spec, FloatAxioms.ltb_spec. intros ->.
  unfold SFltb. rewrite SFcompare_nan_r. reflexivity.
Qed.

Lemma foldl_add_nan (l : list float) (acc : float) :
  PrimFloat.is_nan acc = true \/ (exists x, x ∈ l /\ PrimFloat.is_nan x = true) ->
  PrimFloat.is_nan (foldl PrimFloat.add acc l) = true.
Proof.
  revert acc. induction l as [|y l IH]; intros acc [Hacc|(x & Hx & Hnan)]; cbn.
  - exact Hacc.
  - inversion Hx.
  - apply IH. left. apply add_nan_l, Hacc.
  - apply IH. apply elem_of_cons in Hx as [->|Hx].
    + left. apply add_nan_r, Hnan.
    + right. eauto.
Qed.

(** A NaN among the values makes their mean NaN. *)
Lemma np_mean_nan (a : list float) (x : float) :
  x ∈ a -> PrimFloat.is_nan x = true -> PrimFloat.is_nan (np_mean a) = true.
Proof.
  intros Hx Hnan. unfold np_mean. apply div_nan_l. unfold np_sum.
  destruct a as [|y a]; [inversion Hx|].
  apply foldl_add_nan. apply elem_of_cons in Hx as [->|Hx]; eauto.
Qed.

Lemma sensitive_heads_none (ts : list t_stat) :
  (forall s, s ∈ ts -> is_sensitive s = false) -> sensitive_heads ts = [].
Proof.
  induction ts as [|[[[[l h] i] s] p] ts IH]; intros Hall; [reflexivity|].
  cbn [sensitive_heads].
  pose proof (Hall _ (list_elem_of_here _ _)) as Hs. unfold is_sensitive in Hs.
  rewrite Hs. apply IH. intros; apply Hall, list_elem_of_further; assumption.
Qed.

(** X11. NaN never passes the selection: a record whose SNR or whose
    p-value is NaN is not sensitive; and a single NaN among the impact
    scores makes the mean, hence every head's t statistic and significance,
    NaN, so that no head at all is selected. *)
Theorem nan_scores_select_nothing (cdf : Z -> float -> float)
    (hs : list head_stat) :
  (forall (l h : nat) (impact snr p_val : float),
     PrimFloat.is_nan snr = true \/ PrimFloat.is_nan p_val = true ->
     is_sensitive (l, h, impact, snr, p_val) = false) /\
  ((exists l h impact snr,
      (l, h, impact, snr) ∈ hs /\ PrimFloat.is_nan impact = true) ->
   (forall (l h : nat) (impact snr p_val : float),
      (l, h, impact, snr, p_val) ∈ t_stats cdf hs -> p_val = PrimFloat.nan) /\
   sensitive_heads (t_stats cdf hs) = []).
Proof.
  assert (Hrec : forall (l h : nat) (impact snr p_val : float),
    PrimFloat.is_nan snr = true \/ PrimFloat.is_nan p_val = true ->
    is_sensitive (l, h, impact, snr, p_val) = false).
  { intros l h impact snr p [Hs|Hp]; unfold is_sensitive.
    - rewrite (ltb_nan_r _ snr Hs). apply andb_false_r.
    - rewrite (ltb_nan_l p _ Hp). reflexivity. }
  split; [exact Hrec|].
  intros (l0 & h0 & i0 & s0 & Hin0 & Hnan).
  assert (Hp : forall (l h : nat) (impact snr p_val : float),
    (l, h, impact, snr, p_val) ∈ t_stats cdf hs -> p_val = PrimFloat.nan).
  { intros l h impact snr p Hin. apply t_stats_elem in Hin as [_ ->].
    unfold stdtr.
    assert (Ht : PrimFloat.is_nan (t_statistic (impacts_of hs) impact) = true).
    { unfold t_statistic. apply div_nan_l, sub_nan_l.
      apply (np_mean_nan _ i0); [|exact Hnan].
      unfold impacts_of. apply list_elem_of_fmap.
      exists (l0, h0, i0, s0). auto. }
    rewrite Ht. reflexivity. }
  split; [exact Hp|].
  apply sensitive_heads_none. intros [[[[l h] i] s] p] Hin.
  apply Hrec. right. rewrite (Hp l h i s p Hin). reflexivity.
Qed.

Lemma nan_scores_select_nothing_witness :
  sensitive_heads
    (t_stats sample_cdf
       [(0%nat, 0%nat, PrimFloat.nan, 3%float);
        (0%nat, 1%nat, 5%float, 3%float)]) = [].
Proof.
  apply (nan_scores_select_nothing sample_cdf
           [(0%nat, 0%nat, PrimFloat.nan, 3%float);
            (0%nat, 1%nat, 5%float, 3%float)]).
  exists 0%nat, 0%nat, PrimFloat.nan, 3%float.
  split; [apply list_elem_of_here|reflexivity].
Defined.

(** ** Uniform attention (lines 99-111) *)

(** X12. When every residue of a non-empty mapping has the same accumulated
    attention, the threshold equals that value and, the comparison being
    strict, the report holds its header and no row. *)
Theorem uniform_attention_reports_nothing (sequence : string) (m : gmap Z Q)
    (fs : gmap string artifact) (c : Q) :
  m <> ∅ ->
  (forall i v, m !! i = Some v -> (v == c)%Q) ->
  exists P : Q,
    np_percentile (map_to_list m).*2 95 = Ok P /\ (P == c)%Q /\
    report sequence m fs = (<[csv_file := Csv [csv_header]]> fs, Ok tt).
Proof.
  intros Hne Hc.
  destruct (np_percentile_linear (map_to_list m).*2) as (P & HP & Hlin).
  { intros E. apply fmap_nil_inv in E. apply map_to_list_empty_iff in E.
    contradiction. }
  assert (Hval : forall v, v ∈ (map_to_list m).*2 -> (v == c)%Q).
  { intros v Hv. apply list_elem_of_fmap in Hv as ([i w] & -> & Hw).
    apply elem_of_map_to_list in Hw. exact (Hc i w Hw). }
  destruct (linear_percentile_95_bounds _ P Hlin)
    as (s & lo & x & y & Hperm & _ & Hx & Hy & HxP & HPy & _).
  assert (HPc : (P == c)%Q).
  { assert (Hxc : (x == c)%Q).
    { apply Hval. rewrite <- Hperm. apply list_elem_of_lookup. eauto. }
    assert (Hyc : (y == c)%Q) by (apply Hval; rewrite <- Hperm; exact Hy).
    lra. }
  exists P. split_and!; [exact HP|exact HPc|].
  assert (Hloop : forall keys rows,
    (forall i, i ∈ keys -> is_Some (m !! i)) ->
    for_each keys (report_row sequence m P) (<[csv_file := Csv rows]> fs)
    = (<[csv_file := Csv rows]> fs, Ok tt)).
  { induction keys as [|i keys IH]; intros rows Hkeys; [reflexivity|].
    cbn [for_each]. unfold bind at 1, report_row at 1, bind at 1, lift at 1.
    destruct (Hkeys i (list_elem_of_here _ _)) as [v Hv]. rewrite Hv.
    assert (Hlt : Qltb P v = false).
    { destruct (Qltb P v) eqn:E; [|reflexivity].
      apply Qltb_lt in E. specialize (Hc i v Hv). lra. }
    rewrite Hlt. cbn. apply IH.
    intros; apply Hkeys, list_elem_of_further; assumption. }
  unfold report. rewrite HP. unfold bind at 1, lift at 1.
  unfold bind at 1, open_w, modify.
  unfold bind at 1. rewrite writerow_insert. cbn [app].
  apply Hloop. intros i Hi. apply sorted_keys_elem, Hi.
Qed.

Lemma uniform_attention_reports_nothing_witness :
  exists P : Q,
    np_percentile (map_to_list (<[1 := 1 # 2]> (<[2 := 2 # 4]> ∅)
                                : gmap Z Q)).*2 95 = Ok P /\
    (P == 1 # 2)%Q /\
    report sample_sequence (<[1 := 1 # 2]> (<[2 := 2 # 4]> ∅)) ∅
      = (<[csv_file := Csv [csv_header]]> ∅, Ok tt).
Proof.
  apply (uniform_attention_reports_nothing sample_sequence
           (<[1 := 1 # 2]> (<[2 := 2 # 4]> ∅)) ∅ (1 # 2)).
  - apply insert_non_empty.
  - intros i v Hv.
    apply lookup_insert_Some in Hv as [[_ <-]|[_ Hv]]; [reflexivity|].
    apply lookup_insert_Some in Hv as [[_ <-]|[_ Hv]]; [reflexivity|].
    rewrite lookup_empty in Hv. discriminate.
Defined.

(** ** The stack that is averaged and the stack that is saved
       (lines 118-119 and 146-148) *)

(** X13. For a non-empty list of sensitive heads inside the well-formed
    tensors, the tensor built with [torch.stack] for the mean map (line
    118) and the tensor built with [unsqueeze] and [torch.cat] for the file
    (lines 146-147) are the same tensor: the mean map is the mean over the
    first axis of exactly what is saved. *)
Theorem mean_map_is_mean_of_saved_stack
    (attention_maps impact snr p_val : tensor) (sensitive : list (nat * nat))
    (fs : gmap string artifact) (B Ln Hn S1 S2 L H L' H' Lp Hp : nat) :
  sensitive <> [] ->
  tensor_wf attention_maps ->
  shape attention_maps = [B; Ln; Hn; S1; S2] -> (0 < B)%nat ->
  tensor_wf impact -> shape impact = [L; H] ->
  tensor_wf snr -> shape snr = [L'; H'] ->
  tensor_wf p_val -> shape p_val = [Lp; Hp] ->
  (forall lh, lh ∈ sensitive ->
     ((lh.1 < L /\ lh.2 < H) /\ (lh.1 < L' /\ lh.2 < H')) /\
     ((lh.1 < Lp /\ lh.2 < Hp) /\ (lh.1 < Ln /\ lh.2 < Hn)))%nat ->
  exists (maps : list tensor) (stacked mean : tensor),
    rmap (attention_of attention_maps) sensitive = Ok maps /\
    stack maps = Ok stacked /\
    cat0 (unsqueeze0 <$> maps) = Ok stacked /\
    (save_stage attention_maps impact snr sensitive fs).1 !! maps_file
      = Some (TensorFile stacked) /\
    mean_map_stage attention_maps impact snr p_val sensitive = Ok (Some mean) /\
    mean_dim0 stacked = Ok mean.
Proof.
  intros Hne Hawf Hash HB Hiwf Hish Hswf Hssh Hpwf Hpsh Hin.
  destruct (selected_maps attention_maps B Ln Hn S1 S2 sensitive Hawf Hash HB)
    as (maps & Hmaps & Hrel & Hshapes & _).
  { intros lh Hlh. apply (Hin lh Hlh). }
  destruct (rmap_select2_ok impact L H sensitive Hiwf Hish) as [xs1 Hx1].
  { intros lh Hlh. apply (Hin lh Hlh). }
  destruct (rmap_select2_ok snr L' H' sensitive Hswf Hssh) as [xs2 Hx2].
  { intros lh Hlh. apply (Hin lh Hlh). }
  destruct (rmap_select2_ok p_val Lp Hp sensitive Hpwf Hpsh) as [xs3 Hx3].
  { intros lh Hlh. apply (Hin lh Hlh). }
  destruct (score_dict_ok impact L H sensitive Hiwf Hish) with (d := ∅ : gmap string float)
    as [d1 Hd1]; [intros lh Hlh; apply (Hin lh Hlh)|].
  destruct (score_dict_ok snr L' H' sensitive Hswf Hssh) with (d := ∅ : gmap string float)
    as [d2 Hd2]; [intros lh Hlh; apply (Hin lh Hlh)|].
  assert (Hmne : maps <> []).
  { intros ->. apply Forall2_length in Hrel.
    destruct sensitive; [congruence|discriminate]. }
  pose proof (stack_same_shape maps [S1; S2] Hmne Hshapes) as Hstack.
  pose proof (cat0_unsqueezed maps [S1; S2] Hmne Hshapes) as Hcat.
  destruct (mean_dim0 (Tensor (length maps :: [S1; S2])
                         (concat (storage <$> maps)))) as [mean|] eqn:Hmean;
    [|discriminate].
  exists maps, (Tensor (length maps :: [S1; S2]) (concat (storage <$> maps))),
    mean.
  split_and!; try assumption.
  - unfold save_stage. rewrite Hd1. unfold bind at 1, lift at 1.
    rewrite Hd2. unfold bind at 1, lift at 1.
    unfold bind at 1, torch_save at 1, modify at 1.
    destruct sensitive as [|lh0 rest]; [congruence|].
    rewrite (rmap_then _ unsqueeze0 _ _ Hmaps).
    unfold bind at 1, lift at 1. rewrite Hcat.
    apply lookup_insert_eq.
  - unfold mean_map_stage. destruct sensitive as [|lh0 rest]; [congruence|].
    rewrite Hmaps. cbn [rbind]. rewrite Hstack. cbn [rbind].
    rewrite Hmean. cbn [rbind]. rewrite Hx1, Hx2, Hx3. reflexivity.
Qed.

Lemma mean_map_is_mean_of_saved_stack_witness :
  exists (maps : list tensor) (stacked mean : tensor),
    rmap (attention_of sample_attention) [(0%nat, 1%nat); (0%nat, 0%nat)]
      = Ok maps /\
    stack maps = Ok stacked /\
    cat0 (unsqueeze0 <$> maps) = Ok stacked /\
    (save_stage sample_attention sample_impacts sample_snrs
       [(0%nat, 1%nat); (0%nat, 0%nat)] ∅).1 !! maps_file
      = Some (TensorFile stacked) /\
    mean_map_stage sample_attention sample_impacts sample_snrs sample_p_values
      [(0%nat, 1%nat); (0%nat, 0%nat)] = Ok (Some mean) /\
    mean_dim0 stacked = Ok mean.
Proof.
  apply (mean_map_is_mean_of_saved_stack sample_attention sample_impacts
           sample_snrs sample_p_values [(0%nat, 1%nat); (0%nat, 0%nat)] ∅
           1 1 2 2 2 1 2 1 2 1 2);
    try reflexivity; try discriminate; try lia.
  exact sample_heads_in_range.
Defined.

(** ** Runs do not depend on the files they find *)
















